(** * osrs-companion: the data resolution and query layer of [src/index.ts]

    A shallow embedding of the item resolver and its mapping cache, the price
    lookup, the player sync store, the remote player cache and the bank and
    skill queries, followed by the properties of the specification that are
    settled against them.

    Conventions of the embedding.
    - A JavaScript string is a [string]: a sequence of code units.  Only
      well-formed text is represented, on which [encodeURIComponent] is total.
    - JavaScript numbers that the code treats as integers (timestamps in
      milliseconds, HTTP status codes, quantities, tab indices, prices) are
      [Z]; item identifiers are non-negative, hence [N].
    - An [async] function that may [throw] is a computation in the monad [M]:
      it reads and updates a [World] (the module-level caches, the clock, the
      log of HTTP requests) and ends in [Ok v] or in [Thrown e].
    - Text formatting ([toLocaleString], wiki URLs, joining lines) is kept as
      structured values: a handler returns a constructor per [return]
      statement of the source, carrying the data its text is built from. *)

From Stdlib Require Import ZArith NArith String Ascii List Bool Lia Sorted.
From stdpp Require Import base option list strings gmap pretty.

Local Open Scope string_scope.
Local Open Scope Z_scope.
Set Warnings "-register-all".

(** ** String built-ins *)

(** [s.startsWith(t)]. *)
Fixpoint startsWith (s t : string) {struct t} : bool :=
  match t, s with
  | EmptyString, _ => true
  | String _ _, EmptyString => false
  | String b t', String a s' => if decide (a = b) then startsWith s' t' else false
  end.

(** [s.includes(t)]: [t] occurs in [s] at some position. *)
Fixpoint includes (s t : string) : bool :=
  startsWith s t ||
  match s with
  | EmptyString => false
  | String _ s' => includes s' t
  end.

(** [s.endsWith(t)]. *)
Definition endsWith (s t : string) : bool :=
  startsWith (String.rev s) (String.rev t).

(** The case mappings restricted to ASCII letters; they instantiate the
    [toLowerCase] and [toUpperCase] parameters below on ASCII text. *)
Definition ascii_lower (c : ascii) : ascii :=
  let n := N_of_ascii c in
  if ((65 <=? n) && (n <=? 90))%N then ascii_of_N (n + 32) else c.

Definition ascii_upper (c : ascii) : ascii :=
  let n := N_of_ascii c in
  if ((97 <=? n) && (n <=? 122))%N then ascii_of_N (n - 32) else c.

Fixpoint map_string (f : ascii -> ascii) (s : string) : string :=
  match s with
  | EmptyString => EmptyString
  | String c s' => String (f c) (map_string f s')
  end.

Definition ascii_toLowerCase : string -> string := map_string ascii_lower.
Definition ascii_toUpperCase : string -> string := map_string ascii_upper.

(** ** Data model *)

(** An item identifier: the property key [String(item.id)] of the mapping
    object and of the price response, represented by the number itself. *)
Definition ItemId := N.

(** One element [{id, name}] of the array served by [/mapping]. *)
Record MappingItem := { mi_id : ItemId; mi_name : string }.

(** Body of [/mapping] as [getItemMapping] sees it: an array, or anything
    else ([Array.isArray(data)] is false). *)
Inductive MappingBody :=
| MappingArray (items : list MappingItem)
| MappingOther.

(** [WikiItemMapping]: the own properties of the object, listed in the order
    in which [Object.entries] enumerates them. *)
Definition WikiItemMapping := list (ItemId * string).

(** [PriceData]: every field is optional. *)
Record PriceData := {
  high : option Z;
  highTime : option Z;
  low : option Z;
  lowTime : option Z
}.

(** [PriceResponse]: [{ data?: { [itemId]: PriceData } }]. *)
Record PriceResponse := { pr_data : option (gmap N PriceData) }.

Record WikiSearchItem := { title : string; snippet : string; pageid : Z }.

(** [WikiSearchResponse]: [{ query?: { search?: WikiSearchItem[] } }]. *)
Record WikiSearchResponse := { wsr_query : option (option (list WikiSearchItem)) }.

Record WikiPage := {
  page_title : string;
  page_pageid : Z;
  missing : option bool;
  extract : option string
}.

(** [WikiPageResponse]: [{ query?: { pages?: WikiPage[] } }]. *)
Record WikiPageResponse := { wpr_query : option (option (list WikiPage)) }.

(** A parsed JSON value, for the payload of the player API, which the code
    types as [Record<string, unknown>] and never inspects beyond its keys. *)
Inductive Json :=
| JNull
| JBool (b : bool)
| JNumber (n : Z)
| JString (s : string)
| JArray (xs : list Json)
| JObject (fields : list (string * Json)).

(** JavaScript truthiness of a JSON value ([!data] is its negation). *)
Definition truthy (j : Json) : bool :=
  match j with
  | JNull => false
  | JBool b => b
  | JNumber n => negb (n =? 0)
  | JString s => negb (bool_decide (s = ""))
  | JArray _ | JObject _ => true
  end.

(** [Object.keys(data).length] for a non-null value. *)
Definition keys_length (j : Json) : nat :=
  match j with
  | JObject fields => length fields
  | JArray xs => length xs
  | JString s => String.length s
  | JNull | JBool _ | JNumber _ => 0%nat
  end.

Record SyncItem := { itemId : Z; name : string; quantity : Z }.
Record BankTab := { tabIndex : Z; items : list SyncItem }.
Record SkillEntry := { level : Z; xp : Z }.

(** A JavaScript object read through string keys: its own properties in
    enumeration order.  Keys of a parsed object are pairwise distinct. *)
Definition JsObject (V : Type) := list (string * V).

Definition obj_get {V} (key : string) (o : JsObject V) : option V :=
  snd <$> find (fun e => bool_decide (fst e = key)) o.

Definition obj_keys {V} (o : JsObject V) : list string := map fst o.

(** [data.bank]: [tabs] is optional because the handler tests
    [data.bank?.tabs]. *)
Record Bank := { totalItems : Z; tabs : option (list BankTab) }.

(** [PlayerSyncData], restricted to the fields read by the bank and skill
    queries.  A field the handlers test for presence is optional. *)
Record PlayerSyncData := {
  skills : option (JsObject SkillEntry);
  bank : option Bank
}.

(** One entry of [playerDataCache]. *)
Record CacheEntry := { ce_data : Json; fetchedAt : Z }.

(** ** Effects: exceptions, the network, the file system, the caches *)

(** A thrown value: an [Error] with its message, or anything else. *)
Inductive Thrown :=
| ErrorObj (message : string)
| NonError.

Inductive Res (A : Type) :=
| Ok (a : A)
| Throw (e : Thrown).
Arguments Ok {A} a.
Arguments Throw {A} e.

(** The two routes of the prices API used by the code, indexed by the type
    the caller gives to the parsed body. *)
Inductive PricesPath : Type -> Type :=
| mapping_path : PricesPath MappingBody
| latest_path (id : ItemId) : PricesPath PriceResponse.

(** The two parameter sets sent to the wiki API. *)
Inductive WikiParams : Type -> Type :=
| search_params (srsearch : string) (srlimit : Z) : WikiParams WikiSearchResponse
| extracts_params (titles : string) : WikiParams WikiPageResponse.

(** Every URL the program requests. *)
Inductive Url : Type -> Type :=
| PricesUrl {T} (path : PricesPath T) : Url T
| WikiUrl {T} (params : WikiParams T) : Url T
| WikiSyncUrl (username : string) : Url Json.

Inductive Request :=
| Get {T : Type} (url : Url T).

(** What one [fetch] meets: the promise rejects (transport failure), or a
    response arrives with a status and a body whose [json()] either parses
    or rejects.  [latency] is the time the request takes. *)
Inductive FetchOutcome (T : Type) :=
| TransportError (e : Thrown)
| HttpResponse (status : Z) (body : Res T).
Arguments TransportError {T} e.
Arguments HttpResponse {T} status body.

Record Reply (T : Type) := { latency : N; outcome : FetchOutcome T }.
Arguments latency {T} r.
Arguments outcome {T} r.

Record Response (T : Type) := { status : Z; json : Res T }.
Arguments status {T} r.
Arguments json {T} r.

(** [res.ok]: the status is in the range 200-299. *)
Definition ok {T} (res : Response T) : bool :=
  (200 <=? status res) && (status res <=? 299).

(** The process and its environment.  [network n url] is the reply to [url]
    when [n] requests have been issued before it; [files] and [directory]
    are the sync directory as [readFile] and [readdir] find it.
    [playerDataCache], an object used as a map from usernames, is the finite
    map of the entries the program has assigned; in a lookup a username that
    names a member of [Object.prototype] reads a value without a numeric
    [fetchedAt], on which the freshness test fails as it does on a missing
    entry. *)
Record World := {
  clock : Z;
  network : nat -> forall T, Url T -> Reply T;
  requests : list Request;
  files : string -> Res string;
  directory : Res (list string);
  itemMappingCache : option WikiItemMapping;
  itemMappingExpiry : Z;
  playerDataCache : gmap string CacheEntry
}.

Definition M (A : Type) : Type := World -> Res A * World.

Definition ret {A} (a : A) : M A := fun w => (Ok a, w).

Definition throw {A} (e : Thrown) : M A := fun w => (Throw e, w).

Definition bind {A B} (m : M A) (k : A -> M B) : M B :=
  fun w =>
    match m w with
    | (Ok a, w') => k a w'
    | (Throw e, w') => (Throw e, w')
    end.

(** [try { m } catch (err) { h err }]: effects of [m] before the throw stay. *)
Definition try_catch {A} (m : M A) (h : Thrown -> M A) : M A :=
  fun w =>
    match m w with
    | (Ok a, w') => (Ok a, w')
    | (Throw e, w') => h e w'
    end.

(** Settling a promise whose outcome is already known. *)
Definition settle {A} (r : Res A) : M A := fun w => (r, w).

Notation "'let*' x ':=' m 'in' k" := (bind m (fun x => k))
  (at level 10, x name, m at level 100, k at level 200).
Notation "'do' m 'then' k" := (bind m (fun _ => k))
  (at level 10, m at level 100, k at level 200).

(** [Date.now()]. *)
Definition Date_now : M Z := fun w => (Ok (clock w), w).

(** The reply that the next request will meet, and the world once that
    request has completed: it is logged and its latency has passed. *)
Definition next_reply {T} (w : World) (url : Url T) : Reply T :=
  network w (length (requests w)) T url.

Definition requested {T} (url : Url T) (w : World) : World :=
  {| clock := clock w + Z.of_N (latency (next_reply w url));
     network := network w;
     requests := (requests w ++ [Get url])%list;
     files := files w;
     directory := directory w;
     itemMappingCache := itemMappingCache w;
     itemMappingExpiry := itemMappingExpiry w;
     playerDataCache := playerDataCache w |}.

(** [fetch(url, ...)]: the promise resolves to a response or rejects. *)
Definition fetch {T} (url : Url T) : M (Response T) :=
  fun w =>
    match outcome (next_reply w url) with
    | TransportError e => (Throw e, requested url w)
    | HttpResponse st body => (Ok {| status := st; json := body |}, requested url w)
    end.

(** [readFile(filepath, "utf-8")] and [readdir(SYNC_DIR)]. *)
Definition readFile (filepath : string) : M string :=
  fun w => (files w filepath, w).

Definition readdir : M (list string) := fun w => (directory w, w).

(** Assignments to the module-level cache variables. *)
Definition with_itemMappingCache (m : WikiItemMapping) (w : World) : World :=
  {| clock := clock w; network := network w; requests := requests w;
     files := files w; directory := directory w;
     itemMappingCache := Some m;
     itemMappingExpiry := itemMappingExpiry w;
     playerDataCache := playerDataCache w |}.

Definition with_itemMappingExpiry (t : Z) (w : World) : World :=
  {| clock := clock w; network := network w; requests := requests w;
     files := files w; directory := directory w;
     itemMappingCache := itemMappingCache w;
     itemMappingExpiry := t;
     playerDataCache := playerDataCache w |}.

(** [playerDataCache[username] = e]. *)
Definition with_playerData (username : string) (e : CacheEntry) (w : World)
  : World :=
  {| clock := clock w; network := network w; requests := requests w;
     files := files w; directory := directory w;
     itemMappingCache := itemMappingCache w;
     itemMappingExpiry := itemMappingExpiry w;
     playerDataCache := <[username := e]> (playerDataCache w) |}.

Definition set_itemMappingCache (m : WikiItemMapping) : M unit :=
  fun w => (Ok tt, with_itemMappingCache m w).

Definition set_itemMappingExpiry (t : Z) : M unit :=
  fun w => (Ok tt, with_itemMappingExpiry t w).

Definition set_playerDataCache (username : string) (e : CacheEntry) : M unit :=
  fun w => (Ok tt, with_playerData username e w).

Definition get_itemMappingCache : M (option WikiItemMapping) :=
  fun w => (Ok (itemMappingCache w), w).

Definition get_itemMappingExpiry : M Z :=
  fun w => (Ok (itemMappingExpiry w), w).

Definition get_playerDataCache (username : string) : M (option CacheEntry) :=
  fun w => (Ok (playerDataCache w !! username), w).

(** Time passing between two tool invocations. *)
Definition elapse (dt : N) (w : World) : World :=
  {| clock := clock w + Z.of_N dt; network := network w;
     requests := requests w; files := files w; directory := directory w;
     itemMappingCache := itemMappingCache w;
     itemMappingExpiry := itemMappingExpiry w;
     playerDataCache := playerDataCache w |}.

(** ** The program *)

Section Companion.

(** Built-ins of the runtime that the program calls and whose tables are not
    part of it: the Unicode case mappings, the JSON parser applied to a sync
    file (its result typed as the code types it, [None] for a falsy value
    such as [null]), and [SYNC_DIR], which depends on [homedir()]. *)
Variable toLowerCase : string -> string.
Variable toUpperCase : string -> string.
Variable JSON_parse : string -> Res (option PlayerSyncData).
Variable SYNC_DIR : string.

(** [join(dir, file)] for a file name without separators. *)
Definition join (dir file : string) : string := dir +:+ "/" +:+ file.

(** *** Wiki / price helpers *)

Definition wikiFetch {T} (params : WikiParams T) : M T :=
  let* res := fetch (WikiUrl params) in
  if negb (ok res)
  then throw (ErrorObj ("Wiki API returned " +:+ pretty (status res)))
  else settle (json res).

Definition pricesFetch {T} (path : PricesPath T) : M T :=
  let* res := fetch (PricesUrl path) in
  if negb (ok res)
  then throw (ErrorObj ("Prices API returned " +:+ pretty (status res)))
  else settle (json res).

(** *** Item mapping cache *)

Definition CACHE_TTL : Z := 1000 * 60 * 60.

(** A key that is a canonical array index is enumerated before every other
    key, in ascending numeric order; the other keys follow in insertion
    order. *)
Definition is_array_index (k : ItemId) : bool := (k <? 4294967295)%N.

Definition enumerated_before (k k' : ItemId) : bool :=
  is_array_index k && (negb (is_array_index k') || (k <? k')%N).

(** [mapping[String(k)] = v]. *)
Fixpoint mapping_set (k : ItemId) (v : string) (m : WikiItemMapping)
  : WikiItemMapping :=
  match m with
  | [] => [(k, v)]
  | (k', v') :: m' =>
      if (k' =? k)%N then (k, v) :: m'
      else if enumerated_before k k' then (k, v) :: m
      else (k', v') :: mapping_set k v m'
  end.

(** [mapping[k]]. *)
Definition mapping_get (k : ItemId) (m : WikiItemMapping) : option string :=
  snd <$> List.find (fun e => (fst e =? k)%N) m.

(** The loop of [getItemMapping] over the fetched array. *)
Definition build_mapping (data : MappingBody) : WikiItemMapping :=
  match data with
  | MappingArray items =>
      fold_left (fun m item => mapping_set (mi_id item) (mi_name item) m) items []
  | MappingOther => []
  end.

Definition getItemMapping : M WikiItemMapping :=
  let* cache := get_itemMappingCache in
  let* now := Date_now in
  let* expiry := get_itemMappingExpiry in
  let refresh :=
    let* data := pricesFetch mapping_path in
    let mapping := build_mapping data in
    do set_itemMappingCache mapping then
    let* now' := Date_now in
    do set_itemMappingExpiry (now' + CACHE_TTL) then
    ret mapping in
  match cache with
  | Some cached => if now <? expiry then ret cached else refresh
  | None => refresh
  end.

(** The two scans of [findItemId] over [Object.entries(mapping)]. *)
Definition find_in_mapping (mapping : WikiItemMapping) (name : string)
  : option ItemId :=
  let lower := toLowerCase name in
  match List.find (fun e => bool_decide (toLowerCase (snd e) = lower)) mapping with
  | Some (id, _) => Some id
  | None =>
      match List.find (fun e => includes (toLowerCase (snd e)) lower) mapping with
      | Some (id, _) => Some id
      | None => None
      end
  end.

Definition findItemId (name : string) : M (option ItemId) :=
  let* mapping := getItemMapping in
  ret (find_in_mapping mapping name).

Definition formatTimeAgo (unixSeconds : Z) : M string :=
  let* now := Date_now in
  let diff := now / 1000 - unixSeconds in
  if diff <? 60 then ret "just now"
  else if diff <? 3600 then ret (pretty (diff / 60) +:+ "m ago")
  else if diff <? 86400 then ret (pretty (diff / 3600) +:+ "h ago")
  else ret (pretty (diff / 86400) +:+ "d ago").

(** *** The [price] tool *)

Inductive PriceLine :=
| Heading (name : string)
| BuyLine (high : Z) (ago : string)
| SellLine (low : Z) (ago : string)
| BlankLine
| UrlLine (name : string).

Inductive PriceResult :=
| ItemNotFound (item : string)
| NoPriceData (item : string)
| PriceQuote (lines : list PriceLine).

(** [time ? ` (${formatTimeAgo(time)})` : ""]. *)
Definition ago_suffix (time : option Z) : M string :=
  match time with
  | Some t =>
      if t =? 0 then ret ""
      else let* s := formatTimeAgo t in ret (" (" +:+ s +:+ ")")
  | None => ret ""
  end.

(** The handler from the price request on, for a resolved [itemId]. *)
Definition price_of (item : string) (itemId : ItemId) : M PriceResult :=
  let* data := pricesFetch (latest_path itemId) in
  match pr_data data ≫= (fun d => d !! itemId) with
  | None => ret (NoPriceData item)
  | Some price =>
      let* mapping := getItemMapping in
      let name := default item (mapping_get itemId mapping) in
      let lines := [Heading name] in
      let* lines :=
        match high price with
        | Some h => let* ago := ago_suffix (highTime price) in
                    ret (lines ++ [BuyLine h ago])%list
        | None => ret lines
        end in
      let* lines :=
        match low price with
        | Some l => let* ago := ago_suffix (lowTime price) in
                    ret (lines ++ [SellLine l ago])%list
        | None => ret lines
        end in
      ret (PriceQuote (lines ++ [BlankLine; UrlLine name])%list)
  end.

Definition price_tool (item : string) : M PriceResult :=
  let* itemId := findItemId item in
  match itemId with
  | None => ret (ItemNotFound item)
  | Some itemId => price_of item itemId
  end.

(** *** The [search] tool *)

Inductive SearchResult :=
| SearchNoResults (query : string)
| SearchFound (results : list WikiSearchItem).

Definition search_tool (query : string) (limit : Z) : M SearchResult :=
  let* data := wikiFetch (search_params query limit) in
  let results := default [] (wsr_query data ≫= (fun q => q)) in
  match results with
  | [] => ret (SearchNoResults query)
  | _ => ret (SearchFound results)
  end.

(** *** Player sync helpers *)

(** One step of [replace(/[^a-z0-9_-]/g, "_")]. *)
Definition sanitize (c : ascii) : ascii :=
  let n := N_of_ascii c in
  if ((97 <=? n) && (n <=? 122) || (48 <=? n) && (n <=? 57)
      || (n =? 95) || (n =? 45))%N
  then c else "_"%char.

Definition sync_filename (username : string) : string :=
  map_string sanitize (toLowerCase username) +:+ ".json".

Definition getPlayerSyncData (username : string) : M (option PlayerSyncData) :=
  let filename := sync_filename username in
  let filepath := join SYNC_DIR filename in
  try_catch
    (let* raw := readFile filepath in settle (JSON_parse raw))
    (fun _ => ret None).

(** [f.replace(/\.json$/, "")]. *)
Definition remove_json_suffix (f : string) : string :=
  if endsWith f ".json"
  then String.substring 0 (String.length f - 5) f
  else f.

Definition listSyncedPlayers : M (list string) :=
  try_catch
    (let* files := readdir in
     ret (map remove_json_suffix
            (List.filter (fun f => endsWith f ".json") files)))
    (fun _ => ret []).

(** *** WikiSync player cache *)

Record PlayerResult := { data : option Json; message : option string }.

Definition NO_PLAYER_DATA : string :=
  "No player data found. Ensure the username is correct and you have the WikiSync plugin installed in RuneLite.".

(** [err instanceof Error ? err.message : "Unknown error"]. *)
Definition error_text (err : Thrown) : string :=
  match err with
  | ErrorObj m => m
  | NonError => "Unknown error"
  end.

(** [!data || Object.keys(data).length === 0]. *)
Definition no_data (data : Json) : bool :=
  negb (truthy data) || (keys_length data =? 0)%nat.

Definition fetchWikiSyncPlayer (username : string) (forceRefresh : bool)
  : M PlayerResult :=
  let* now := Date_now in
  let* cache := get_playerDataCache username in
  let live :=
    try_catch
      (let* resp := fetch (WikiSyncUrl username) in
       if negb (ok resp)
       then ret {| data := None;
                   message := Some ("WikiSync API returned " +:+ pretty (status resp)) |}
       else
         let* data := settle (json resp) in
         if no_data data
         then ret {| data := None; message := Some NO_PLAYER_DATA |}
         else
           do set_playerDataCache username {| ce_data := data; fetchedAt := now |} then
           ret {| data := Some data; message := None |})
      (fun err =>
         ret {| data := None; message := Some ("Error: " +:+ error_text err) |}) in
  match cache with
  | Some cache =>
      if negb forceRefresh && (now - fetchedAt cache <? 3600000)
      then ret {| data := Some (ce_data cache); message := None |}
      else live
  | None => live
  end.

(** *** The [get_my_bank] tool *)

(** [{ ...item, tab: t.tabIndex }]. *)
Record BankItem := { item : SyncItem; item_tab : Z }.

Inductive BankResult :=
| BankNoSyncedData (username : string)
| BankNoBankData (username : string)
| BankNoMatch (username : string)
| BankListing (username : string) (allItems : list BankItem).

(** [data.bank.tabs.flatMap(t => t.items.map(item => ({...item, tab: t.tabIndex})))]. *)
Definition flatten_tabs (tabs : list BankTab) : list BankItem :=
  flat_map (fun t => map (fun i => {| item := i; item_tab := tabIndex t |}) (items t))
           tabs.

(** The predicates of the three filters. *)
Definition matches_search (term : string) (i : BankItem) : bool :=
  includes (toLowerCase (name (item i))) term.

Definition matches_tab (tab : Z) (i : BankItem) : bool := item_tab i =? tab.

Definition matches_minQuantity (minQuantity : Z) (i : BankItem) : bool :=
  minQuantity <=? quantity (item i).

(** [if (search) { ... }]: an empty search string is falsy. *)
Definition filter_search (search : option string) (allItems : list BankItem)
  : list BankItem :=
  match search with
  | Some s =>
      if bool_decide (s = "") then allItems
      else List.filter (matches_search (toLowerCase s)) allItems
  | None => allItems
  end.

(** [if (tab !== undefined) { ... }]. *)
Definition filter_tab (tab : option Z) (allItems : list BankItem)
  : list BankItem :=
  match tab with
  | Some t => List.filter (matches_tab t) allItems
  | None => allItems
  end.

(** [if (minQuantity !== undefined) { ... }]. *)
Definition filter_minQuantity (minQuantity : option Z) (allItems : list BankItem)
  : list BankItem :=
  match minQuantity with
  | Some q => List.filter (matches_minQuantity q) allItems
  | None => allItems
  end.

(** The items the handler lists: flatten, then the three filters in the
    order of the source. *)
Definition bank_items (tabs : list BankTab)
    (search : option string) (tab minQuantity : option Z) : list BankItem :=
  filter_minQuantity minQuantity
    (filter_tab tab (filter_search search (flatten_tabs tabs))).

Definition get_my_bank (username : string)
    (search : option string) (tab minQuantity : option Z) : M BankResult :=
  let* data := getPlayerSyncData username in
  match data with
  | None => ret (BankNoSyncedData username)
  | Some data =>
      match bank data ≫= tabs with
      | None => ret (BankNoBankData username)
      | Some tabs =>
          match bank_items tabs search tab minQuantity with
          | [] => ret (BankNoMatch username)
          | allItems => ret (BankListing username allItems)
          end
      end
  end.

(** *** The [get_my_stats] tool *)

Inductive StatsResult :=
| StatsNoSyncedData (username : string)
| StatsNoSkillData (username : string)
| SkillNotFound (skill : string) (available : list string)
| SkillDetail (username key : string) (level xp : Z)
| SkillListing (username : string) (entries : JsObject SkillEntry).

(** The branch [if (skill) { ... }] for a non-empty [skill]. *)
Definition single_skill (username : string) (skills : JsObject SkillEntry)
    (skill : string) : StatsResult :=
  let key := toUpperCase skill in
  match obj_get key skills with
  | None => SkillNotFound skill (obj_keys skills)
  | Some entry => SkillDetail username key (level entry) (xp entry)
  end.

Definition get_my_stats (username : string) (skill : option string)
  : M StatsResult :=
  let* data := getPlayerSyncData username in
  match data with
  | None => ret (StatsNoSyncedData username)
  | Some data =>
      match skills data with
      | None => ret (StatsNoSkillData username)
      | Some skills =>
          match skill with
          | Some skill =>
              if bool_decide (skill = "") then ret (SkillListing username skills)
              else ret (single_skill username skills skill)
          | None => ret (SkillListing username skills)
          end
      end
  end.



(** *** Text helpers of the wiki tools *)

(** The double quote character. *)
Definition QUOTE : string := String (ascii_of_nat 34) "".

(** For the text that follows a [<]: the number of characters before the
    first [>], and the text after that [>]. *)
Fixpoint after_gt (s : string) : option (nat * string) :=
  match s with
  | EmptyString => None
  | String c s' =>
      if decide (c = ">"%char) then Some (0%nat, s')
      else match after_gt s' with
           | Some (n, rest) => Some (S n, rest)
           | None => None
           end
  end.

(** [text.replace(/<[^>]+>/g, "")], scanning from the left: at a [<] that is
    followed by at least one character other than [>] and then by a [>], the
    text through that [>] is dropped; any other character is kept.  [fuel]
    bounds the number of steps; the length of the text is enough. *)
Fixpoint strip_tags_go (fuel : nat) (s : string) : string :=
  match fuel with
  | O => s
  | S fuel' =>
      match s with
      | EmptyString => EmptyString
      | String c s' =>
          if decide (c = "<"%char) then
            match after_gt s' with
            | Some (S _, rest) => strip_tags_go fuel' rest
            | _ => String c (strip_tags_go fuel' s')
            end
          else String c (strip_tags_go fuel' s')
      end
  end.

Definition strip_tags (text : string) : string :=
  strip_tags_go (String.length text) text.

(** [s.replace(/pat/g, rep)] for a literal, non-empty [pat]: occurrences are
    found from the left and do not overlap.  [skip] counts the characters of
    the current occurrence that remain to be passed over. *)
Fixpoint replace_all_go (pat rep : string) (skip : nat) (s : string) : string :=
  match s with
  | EmptyString => EmptyString
  | String c s' =>
      match skip with
      | S k => replace_all_go pat rep k s'
      | O =>
          if startsWith s pat
          then rep +:+ replace_all_go pat rep (String.length pat - 1) s'
          else String c (replace_all_go pat rep 0 s')
      end
  end.

Definition replace_all (pat rep s : string) : string :=
  replace_all_go pat rep 0 s.

Definition stripHtml (text : string) : string :=
  replace_all "&amp;" "&" (replace_all "&quot;" QUOTE (strip_tags text)).

(** *** The whole sync document and the tools that read it *)

Inductive QuestState := NOT_STARTED | IN_PROGRESS | FINISHED.

Record QuestEntry := {
  quest_name : string;
  displayName : string;
  quest_state : QuestState
}.

Record DiaryRegion := { easy : bool; medium : bool; hard : bool; elite : bool }.

Record CombatAchievements := {
  easyComplete : bool;
  mediumComplete : bool;
  hardComplete : bool;
  eliteComplete : bool;
  completedTasks : list string
}.

(** [SyncItem & { slot: number }]. *)
Record InventoryItem := { slot_item : SyncItem; slot : Z }.

Record PlayerInfo := { player_username : string; combatLevel : Z; world : Z }.

(** [PlayerSyncData] with all its fields.  The fields a handler tests for
    presence are optional. *)
Record SyncDocument := {
  schemaVersion : Z;
  lastUpdated : string;
  player : PlayerInfo;
  doc_skills : option (JsObject SkillEntry);
  doc_bank : option Bank;
  inventory : option (list InventoryItem);
  equipment : option (JsObject SyncItem);
  quests : option (list QuestEntry);
  achievementDiaries : option (JsObject DiaryRegion);
  combatAchievements : option CombatAchievements
}.

(** [getPlayerSyncData] with the parsed file typed as [D]. *)
Definition read_sync_file {D} (parse : string -> Res (option D))
    (username : string) : M (option D) :=
  let filename := sync_filename username in
  let filepath := join SYNC_DIR filename in
  try_catch
    (let* raw := readFile filepath in settle (parse raw))
    (fun _ => ret None).

Section Tools.

(** Two more built-ins of the runtime: [String.prototype.trim], and
    [JSON.parse] on a sync file with its result typed as the whole
    document. *)
Variable trim : string -> string.
Variable JSON_parse_document : string -> Res (option SyncDocument).

(** *** The [summary] tool *)

Inductive SummaryResult :=
| PageNotFound (title : string)
| NoSummary (title : string)
| Summary (title extract : string).

Definition summary_tool (title : string) : M SummaryResult :=
  let* data := wikiFetch (extracts_params title) in
  match (wpr_query data ≫= (fun q => q)) ≫= head with
  | None => ret (PageNotFound title)
  | Some page =>
      if default false (missing page) then ret (PageNotFound title)
      else
        match trim <$> extract page with
        | None => ret (NoSummary (page_title page))
        | Some extract =>
            if bool_decide (extract = "")
            then ret (NoSummary (page_title page))
            else ret (Summary (page_title page) extract)
        end
  end.

(** *** The [player] tool *)

Inductive PlayerToolResult :=
| ProvideUsername
| PlayerMessage (text : string)
| PlayerData (username : string) (data : Json).

Definition player_tool (username : string) (forceRefresh : bool)
  : M PlayerToolResult :=
  if bool_decide (trim username = "") then ret ProvideUsername
  else
    let* result := fetchWikiSyncPlayer username forceRefresh in
    match data result with
    | Some d =>
        if truthy d then ret (PlayerData username d)
        else ret (PlayerMessage (default "No player data found." (message result)))
    | None =>
        ret (PlayerMessage (default "No player data found." (message result)))
    end.

(** *** The tools that read the whole sync document *)

Definition getSyncDocument (username : string) : M (option SyncDocument) :=
  read_sync_file JSON_parse_document username.

(** **** [get_my_quests] *)

Inductive QuestsResult :=
| QuestsNoSyncedData (username : string)
| QuestsNoQuestData (username : string)
| QuestsNoMatch
| QuestsListing (username : string) (lines : list (string * string)).

Definition state_eqb (a b : QuestState) : bool :=
  match a, b with
  | NOT_STARTED, NOT_STARTED | IN_PROGRESS, IN_PROGRESS | FINISHED, FINISHED => true
  | _, _ => false
  end.

Definition filter_state (state : option QuestState) (quests : list QuestEntry)
  : list QuestEntry :=
  match state with
  | Some s => List.filter (fun q => state_eqb (quest_state q) s) quests
  | None => quests
  end.

Definition filter_quest_search (search : option string)
    (quests : list QuestEntry) : list QuestEntry :=
  match search with
  | Some s =>
      if bool_decide (s = "") then quests
      else List.filter
             (fun q => includes (toLowerCase (displayName q)) (toLowerCase s))
             quests
  | None => quests
  end.

Definition quest_icon (q : QuestEntry) : string :=
  match quest_state q with
  | FINISHED => "[Done]"
  | IN_PROGRESS => "[In Progress]"
  | NOT_STARTED => "[Not Started]"
  end.

Definition get_my_quests (username : string) (state : option QuestState)
    (search : option string) : M QuestsResult :=
  let* data := getSyncDocument username in
  match data with
  | None => ret (QuestsNoSyncedData username)
  | Some data =>
      match quests data with
      | None => ret (QuestsNoQuestData username)
      | Some quests =>
          match filter_quest_search search (filter_state state quests) with
          | [] => ret QuestsNoMatch
          | quests =>
              ret (QuestsListing username
                     (map (fun q => (quest_icon q, displayName q)) quests))
          end
      end
  end.

(** **** [get_my_equipment] and [get_my_inventory] *)

Inductive EquipmentLine :=
| EmptySlot (slot : string)
| Equipped (slot name : string) (itemId : Z).

Inductive EquipmentResult :=
| EquipmentNoSyncedData (username : string)
| EquipmentNoData (username : string)
| EquipmentListing (username : string) (lines : list EquipmentLine).

Definition equipment_line (e : string * SyncItem) : EquipmentLine :=
  if itemId (snd e) =? -1 then EmptySlot (fst e)
  else Equipped (fst e) (name (snd e)) (itemId (snd e)).

Definition get_my_equipment (username : string) : M EquipmentResult :=
  let* data := getSyncDocument username in
  match data with
  | None => ret (EquipmentNoSyncedData username)
  | Some data =>
      match equipment data with
      | None => ret (EquipmentNoData username)
      | Some equipment =>
          ret (EquipmentListing username (map equipment_line equipment))
      end
  end.

(** One line of the inventory: slot, name, and the quantity when it is
    shown ([item.quantity > 1]). *)
Record InventoryLine := {
  line_slot : Z;
  line_name : string;
  line_quantity : option Z
}.

Inductive InventoryResult :=
| InventoryNoSyncedData (username : string)
| InventoryNoData (username : string)
| InventoryEmpty (username : string)
| InventoryListing (username : string) (lines : list InventoryLine).

Definition inventory_line (i : InventoryItem) : InventoryLine :=
  {| line_slot := slot i;
     line_name := name (slot_item i);
     line_quantity := if 1 <? quantity (slot_item i)
                      then Some (quantity (slot_item i)) else None |}.

Definition get_my_inventory (username : string) : M InventoryResult :=
  let* data := getSyncDocument username in
  match data with
  | None => ret (InventoryNoSyncedData username)
  | Some data =>
      match inventory data with
      | None => ret (InventoryNoData username)
      | Some inventory =>
          match List.filter (fun i => negb (itemId (slot_item i) =? -1)) inventory with
          | [] => ret (InventoryEmpty username)
          | items => ret (InventoryListing username (map inventory_line items))
          end
      end
  end.

(** **** [get_my_diaries] *)

Inductive DiariesResult :=
| DiariesNoSyncedData (username : string)
| DiariesNoData (username : string)
| RegionNotFound (region : string) (available : list string)
| DiariesListing (username : string) (diaries : JsObject DiaryRegion).

Definition get_my_diaries (username : string) (region : option string)
  : M DiariesResult :=
  let* data := getSyncDocument username in
  match data with
  | None => ret (DiariesNoSyncedData username)
  | Some data =>
      match achievementDiaries data with
      | None => ret (DiariesNoData username)
      | Some all =>
          match region with
          | Some region =>
              if bool_decide (region = "") then ret (DiariesListing username all)
              else
                let key := toUpperCase region in
                match List.filter
                        (fun e => bool_decide (toUpperCase (fst e) = key)) all with
                | [] => ret (RegionNotFound region (obj_keys all))
                | diaries => ret (DiariesListing username diaries)
                end
          | None => ret (DiariesListing username all)
          end
      end
  end.

(** **** [get_my_combat_achievements] *)

Inductive TaskListing :=
| NoTaskLines
| TaskLines (tasks : list string)
| TooManyTasks (count : nat).

Record CombatReport := {
  report_tiers : bool * bool * bool * bool;
  report_completed : nat;
  report_matching : option (string * nat);
  report_tasks : TaskListing
}.

Inductive CombatResult :=
| CombatNoSyncedData (username : string)
| CombatNoData (username : string)
| CombatListing (username : string) (report : CombatReport).

Definition get_my_combat_achievements (username : string)
    (search : option string) : M CombatResult :=
  let* data := getSyncDocument username in
  match data with
  | None => ret (CombatNoSyncedData username)
  | Some data =>
      match combatAchievements data with
      | None => ret (CombatNoData username)
      | Some ca =>
          let searching :=
            match search with
            | Some s => if bool_decide (s = "") then None else Some s
            | None => None
            end in
          let tasks :=
            match searching with
            | Some s =>
                List.filter (fun t => includes (toLowerCase t) (toLowerCase s))
                            (completedTasks ca)
            | None => completedTasks ca
            end in
          ret (CombatListing username
                 {| report_tiers := (easyComplete ca, mediumComplete ca,
                                     hardComplete ca, eliteComplete ca);
                    report_completed := length (completedTasks ca);
                    report_matching :=
                      (fun s => (s, length tasks)) <$> searching;
                    report_tasks :=
                      if (0 <? length tasks)%nat && (length tasks <=? 100)%nat
                      then TaskLines tasks
                      else if (100 <? length tasks)%nat
                           then TooManyTasks (length tasks)
                           else NoTaskLines |})
      end
  end.

(** **** [get_my_profile] *)







End Tools.
(** *** Vocabulary of the properties *)

(** Two names are equal, or one contains the other, once both are put in
    lower case, as [findItemId] compares them. *)
Definition same_ignoring_case (itemName query : string) : Prop :=
  toLowerCase itemName = toLowerCase query.

Definition contains_ignoring_case (itemName query : string) : Prop :=
  exists pre post, toLowerCase itemName = pre +:+ toLowerCase query +:+ post.

(** [id] is the key of the first entry of [mapping], in enumeration order,
    whose name satisfies [P]. *)
Definition first_entry (P : string -> Prop) (mapping : WikiItemMapping)
    (id : ItemId) : Prop :=
  exists before itemName after,
    mapping = (before ++ (id, itemName) :: after)%list /\
    P itemName /\
    Forall (fun e => ~ P (snd e)) before.

(** The parsed body that a reply delivers to [wikiFetch] or [pricesFetch]:
    the transport succeeded, the status is a success status and the body
    parsed.  [None] on every failure. *)
Definition payload {T} (r : Reply T) : option T :=
  match outcome r with
  | HttpResponse st (Ok body) =>
      if (200 <=? st) && (st <=? 299) then Some body else None
  | HttpResponse _ (Throw _) => None
  | TransportError _ => None
  end.

(** The cached item table is within its TTL window: the test
    [itemMappingCache && Date.now() < itemMappingExpiry]. *)
Definition mapping_fresh (w : World) : bool :=
  match itemMappingCache w with
  | Some _ => clock w <? itemMappingExpiry w
  | None => false
  end.

(** A sequence of resolutions, each started [dt] after the previous one
    ended; the world after the last. *)
Fixpoint resolutions (gaps : list N) (w : World) : World :=
  match gaps with
  | [] => w
  | dt :: gaps' => resolutions gaps' (snd (getItemMapping (elapse dt w)))
  end.

Definition total_time (gaps : list N) : Z :=
  fold_right (fun dt t => Z.of_N dt + t) 0 gaps.

(** The entry that a call to [fetchWikiSyncPlayer] serves without a request:
    the test [cache && !forceRefresh && now - cache.fetchedAt < 3600_000]. *)
Definition served_from_cache (w : World) (username : string)
    (forceRefresh : bool) : option CacheEntry :=
  match playerDataCache w !! username with
  | Some cache =>
      if negb forceRefresh && (clock w - fetchedAt cache <? 3600000)
      then Some cache else None
  | None => None
  end.

(** The reply is a success response with a non-empty body, the only one that
    [fetchWikiSyncPlayer] stores. *)
Definition nonempty_success (r : Reply Json) : bool :=
  match payload r with
  | Some body => negb (no_data body)
  | None => false
  end.


(** The skill key [key] equals the argument [skill] up to case. *)
Definition same_skill_key (key skill : string) : Prop :=
  toUpperCase key = toUpperCase skill.

(** *** Vocabulary of the further properties *)

(** The text [formatTimeAgo] returns when the clock shows [now]. *)
Definition time_ago (now unixSeconds : Z) : string :=
  let diff := now / 1000 - unixSeconds in
  if diff <? 60 then "just now"
  else if diff <? 3600 then pretty (diff / 60) +:+ "m ago"
  else if diff <? 86400 then pretty (diff / 3600) +:+ "h ago"
  else pretty (diff / 86400) +:+ "d ago".

(** The staleness suffix of one side of a quote, and the line of that side,
    if the side is populated. *)
Definition staleness (now : Z) (time : option Z) : string :=
  match time with
  | Some t => if t =? 0 then "" else " (" +:+ time_ago now t +:+ ")"
  | None => ""
  end.


(** The characters of a string. *)
Definition chars (s : string) : list ascii := list_ascii_of_string s.

(** A character of the class [[a-z0-9_-]]. *)
Definition safe_char (c : ascii) : bool :=
  let n := N_of_ascii c in
  ((97 <=? n) && (n <=? 122) || (48 <=? n) && (n <=? 57)
   || (n =? 95) || (n =? 45))%N.


(** A JSON value on which [Object.keys] finds at least one key: a non-empty
    object, array or string. *)
Definition has_keys (j : Json) : Prop :=
  match j with
  | JObject (_ :: _) | JArray (_ :: _) | JString (String _ _) => True
  | _ => False
  end.

(** A string holds a tag: a [<], then at least one character and no [>],
    then a [>] -- an occurrence of the pattern [<[^>]+>]. *)
Definition has_tag (s : string) : Prop :=
  exists pre x post,
    s = pre +:+ "<" +:+ x +:+ ">" +:+ post /\
    x <> "" /\ ~ In ">"%char (chars x).

(** The same, decided from the left: no [<] is followed by at least one
    character other than [>] and then by a [>]. *)
Fixpoint tag_free (s : string) : bool :=
  match s with
  | EmptyString => true
  | String c s' =>
      (if decide (c = "<"%char)
       then match after_gt s' with
            | Some (S _, _) => false
            | _ => true
            end
       else true)
      && tag_free s'
  end.

(** A quest passes the filters that are supplied: its state is the one asked
    for, and its display name contains the non-empty search text up to
    case. *)
Definition quest_matches (state : option QuestState) (search : option string)
    (q : QuestEntry) : bool :=
  match state with
  | Some s => state_eqb (quest_state q) s
  | None => true
  end
  && match search with
     | Some t => bool_decide (t = "")
                 || includes (toLowerCase (displayName q)) (toLowerCase t)
     | None => true
     end.

(** A diary key names the region asked for, up to case. *)
Definition same_region (key region : string) : Prop :=
  toUpperCase key = toUpperCase region.

(** The completed tasks that contain the search text up to case. *)
Definition matching_tasks (search : string) (tasks : list string) : list string :=
  List.filter (fun t => includes (toLowerCase t) (toLowerCase search)) tasks.



(** *** Scenarios

    Concrete environments and documents on which the program is run. *)

(** Networks that answer every request alike: with a status and a body
    that is not JSON, or not at all. *)
Definition net_status (st : Z) : nat -> forall T, Url T -> Reply T :=
  fun _ T _ =>
    {| latency := 40;
       outcome := HttpResponse st (Throw (ErrorObj "Unexpected token < in JSON")) |}.

Definition net_unreachable : nat -> forall T, Url T -> Reply T :=
  fun _ T _ =>
    {| latency := 0; outcome := TransportError (ErrorObj "fetch failed") |}.

(** A prices API that serves three items and, for every identifier, a
    latest-prices body in which item 4151 has an entry with no field and
    item 2 an entry with both sides. *)
Definition mapping_array : list MappingItem :=
  [ {| mi_id := 4151%N; mi_name := "Abyssal whip" |};
    {| mi_id := 2%N; mi_name := "Cannonball" |};
    {| mi_id := 11840%N; mi_name := "Dragon boots" |} ].

Definition no_trade : PriceData :=
  {| high := None; highTime := None; low := None; lowTime := None |}.

Definition cannonball_price : PriceData :=
  {| high := Some 201; highTime := Some 1699999000;
     low := Some 198; lowTime := Some 1699990000 |}.

Definition latest_body : PriceResponse :=
  {| pr_data := Some (<[4151%N := no_trade]> {[ 2%N := cannonball_price ]}) |}.

Definition prices_up {T} (path : PricesPath T) : Reply T :=
  match path in PricesPath T return Reply T with
  | mapping_path =>
      {| latency := 250;
         outcome := HttpResponse 200 (Ok (MappingArray mapping_array)) |}
  | latest_path _ =>
      {| latency := 120; outcome := HttpResponse 200 (Ok latest_body) |}
  end.

(** A player API that serves [body] for every username. *)
Definition net_up (body : Json) : nat -> forall T, Url T -> Reply T :=
  fun _ T url =>
    match url in Url T return Reply T with
    | PricesUrl path => prices_up path
    | WikiUrl _ =>
        {| latency := 0; outcome := TransportError (ErrorObj "fetch failed") |}
    | WikiSyncUrl _ =>
        {| latency := 300; outcome := HttpResponse 200 (Ok body) |}
    end.

Definition bob_payload : Json :=
  JObject [("quests", JObject [("Dragon Slayer I", JNumber 2)])].

Definition stale_payload : Json :=
  JObject [("quests", JObject [("Dragon Slayer I", JNumber 1)])].

(** The sync directory: one well-formed file per synced player, one file
    that is not JSON, nothing else. *)
Definition sync_files (filepath : string) : Res string :=
  if bool_decide (filepath = "/home/player/.runelite/mcp-sync/bob.json")
  then Ok "document of bob"
  else if bool_decide (filepath = "/home/player/.runelite/mcp-sync/alice.json")
  then Ok "document of alice"
  else if bool_decide (filepath = "/home/player/.runelite/mcp-sync/corrupt.json")
  then Ok "{ truncated"
  else Throw (ErrorObj "ENOENT: no such file or directory").

Definition bob_document : PlayerSyncData :=
  {| skills := Some [ ("ATTACK", {| level := 75; xp := 1210421 |});
                      ("MINING", {| level := 60; xp := 273742 |});
                      ("OVERALL", {| level := 135; xp := 1484163 |}) ];
     bank := Some {| totalItems := 2;
                     tabs := Some [ {| tabIndex := 0;
                                       items := [ {| itemId := 1;
                                                     name := "Rune arrow";
                                                     quantity := 5000 |} ] |};
                                    {| tabIndex := 1;
                                       items := [ {| itemId := 2;
                                                     name := "Shark";
                                                     quantity := 3 |} ] |} ] |} |}.

(** A document whose only skill key is not in upper case. *)
Definition alice_document : PlayerSyncData :=
  {| skills := Some [ ("Attack", {| level := 75; xp := 1210421 |}) ];
     bank := None |}.

(** [JSON.parse] on the contents of the files above. *)
Definition parse_sync_file (raw : string) : Res (option PlayerSyncData) :=
  if bool_decide (raw = "document of bob") then Ok (Some bob_document)
  else if bool_decide (raw = "document of alice") then Ok (Some alice_document)
  else Throw (ErrorObj "Unexpected end of JSON input").

Definition home_sync_dir : string := "/home/player/.runelite/mcp-sync".

(** A process that has just started: both caches empty. *)
Definition started (net : nat -> forall T, Url T -> Reply T) : World :=
  {| clock := 1700000000000;
     network := net;
     requests := [];
     files := sync_files;
     directory := Ok ["bob.json"; "alice.json"; "corrupt.json"; "notes.txt"];
     itemMappingCache := None;
     itemMappingExpiry := 0;
     playerDataCache := ∅ |}.

(** A process whose item table was fetched ten minutes ago and that holds a
    payload for Bob fetched fifty minutes ago. *)
Definition warm (net : nat -> forall T, Url T -> Reply T) : World :=
  {| clock := 1700000000000;
     network := net;
     requests := [];
     files := sync_files;
     directory := Ok ["bob.json"; "alice.json"; "corrupt.json"; "notes.txt"];
     itemMappingCache := Some (build_mapping (MappingArray mapping_array));
     itemMappingExpiry := 1700000000000 + 3000000;
     playerDataCache :=
       {[ "Bob" := {| ce_data := stale_payload;
                      fetchedAt := 1700000000000 - 3000000 |} ]} |}.

(** *** Further scenarios *)

(** [trim] on ASCII text: blanks are removed at both ends. *)
Definition ascii_space (c : ascii) : bool :=
  let n := N_of_ascii c in
  ((n =? 32) || (n =? 9) || (n =? 10) || (n =? 11) || (n =? 12) || (n =? 13))%N.

Fixpoint drop_spaces (s : string) : string :=
  match s with
  | EmptyString => EmptyString
  | String c s' => if ascii_space c then drop_spaces s' else s
  end.

Definition ascii_trim (s : string) : string :=
  String.rev (drop_spaces (String.rev (drop_spaces s))).

(** The whole document of Bob: a mixed-case diary key, an empty inventory
    slot, an empty equipment slot. *)
Definition bob_whole_document : SyncDocument :=
  {| schemaVersion := 1;
     lastUpdated := "2023-11-14T22:13:20Z";
     player := {| player_username := "Bob"; combatLevel := 90; world := 302 |};
     doc_skills := skills bob_document;
     doc_bank := bank bob_document;
     inventory :=
       Some [ {| slot_item := {| itemId := 385; name := "Shark"; quantity := 1 |};
                 slot := 0 |};
              {| slot_item := {| itemId := -1; name := ""; quantity := 0 |};
                 slot := 1 |};
              {| slot_item := {| itemId := 892; name := "Rune arrow"; quantity := 250 |};
                 slot := 2 |} ];
     equipment :=
       Some [ ("HEAD", {| itemId := -1; name := ""; quantity := 0 |});
              ("WEAPON", {| itemId := 4151; name := "Abyssal whip"; quantity := 1 |}) ];
     quests :=
       Some [ {| quest_name := "DRAGON_SLAYER_I"; displayName := "Dragon Slayer I";
                 quest_state := FINISHED |};
              {| quest_name := "DRAGON_SLAYER_II"; displayName := "Dragon Slayer II";
                 quest_state := IN_PROGRESS |};
              {| quest_name := "COOKS_ASSISTANT"; displayName := "Cook's Assistant";
                 quest_state := FINISHED |};
              {| quest_name := "MONKEY_MADNESS_I"; displayName := "Monkey Madness I";
                 quest_state := NOT_STARTED |} ];
     achievementDiaries :=
       Some [ ("ARDOUGNE", {| easy := true; medium := true; hard := false;
                              elite := false |});
              ("Varrock", {| easy := true; medium := false; hard := false;
                             elite := false |}) ];
     combatAchievements :=
       Some {| easyComplete := true; mediumComplete := false;
               hardComplete := false; eliteComplete := false;
               completedTasks := [ "Noxious Foe"; "Barrows Novice";
                                   "A Slow Death"; "Giant Mole Novice" ] |} |}.

(** A document without the key OVERALL, with more than a hundred completed
    tasks and with a bank that has no tabs. *)
Definition carol_whole_document : SyncDocument :=
  {| schemaVersion := 1;
     lastUpdated := "2023-11-14T22:13:20Z";
     player := {| player_username := "Carol"; combatLevel := 3; world := 301 |};
     doc_skills := Some [ ("ATTACK", {| level := 40; xp := 37224 |});
                          ("MINING", {| level := 15; xp := 2411 |}) ];
     doc_bank := Some {| totalItems := 0; tabs := None |};
     inventory := Some [ {| slot_item := {| itemId := -1; name := ""; quantity := 0 |};
                            slot := 0 |} ];
     equipment := None;
     quests := Some [];
     achievementDiaries := None;
     combatAchievements :=
       Some {| easyComplete := true; mediumComplete := true;
               hardComplete := false; eliteComplete := false;
               completedTasks := repeat "Noxious Foe" 101 |} |}.

Definition sync_files_whole (filepath : string) : Res string :=
  if bool_decide (filepath = "/home/player/.runelite/mcp-sync/bob.json")
  then Ok "document of bob"
  else if bool_decide (filepath = "/home/player/.runelite/mcp-sync/carol.json")
  then Ok "document of carol"
  else Throw (ErrorObj "ENOENT: no such file or directory").

Definition parse_whole_document (raw : string) : Res (option SyncDocument) :=
  if bool_decide (raw = "document of bob") then Ok (Some bob_whole_document)
  else if bool_decide (raw = "document of carol") then Ok (Some carol_whole_document)
  else Throw (ErrorObj "Unexpected end of JSON input").

(** A wiki that finds one article and serves its extract. *)
Definition whip_page : WikiPage :=
  {| page_title := "Abyssal whip"; page_pageid := 4151; missing := None;
     extract := Some "  The abyssal whip is a one-handed Melee weapon. " |}.

Definition wiki_up {T} (params : WikiParams T) : Reply T :=
  match params in WikiParams T return Reply T with
  | search_params _ _ =>
      {| latency := 80;
         outcome :=
           HttpResponse 200
             (Ok {| wsr_query :=
                      Some (Some [ {| title := "Abyssal whip";
                                      snippet := "The <span>abyssal</span> whip";
                                      pageid := 4151 |} ]) |}) |}
  | extracts_params _ =>
      {| latency := 80;
         outcome := HttpResponse 200
                      (Ok {| wpr_query := Some (Some [whip_page]) |}) |}
  end.

Definition net_wiki : nat -> forall T, Url T -> Reply T :=
  fun _ T url =>
    match url in Url T return Reply T with
    | WikiUrl params => wiki_up params
    | PricesUrl _ =>
        {| latency := 0; outcome := TransportError (ErrorObj "fetch failed") |}
    | WikiSyncUrl _ =>
        {| latency := 0; outcome := TransportError (ErrorObj "fetch failed") |}
    end.

(** A prices API whose mapping route answers with an object, not an
    array. *)
Definition net_mapping_object : nat -> forall T, Url T -> Reply T :=
  fun _ T url =>
    match url in Url T return Reply T with
    | PricesUrl path =>
        match path in PricesPath T return Reply T with
        | mapping_path =>
            {| latency := 250; outcome := HttpResponse 200 (Ok MappingOther) |}
        | latest_path _ =>
            {| latency := 120; outcome := HttpResponse 200 (Ok latest_body) |}
        end
    | WikiUrl _ =>
        {| latency := 0; outcome := TransportError (ErrorObj "fetch failed") |}
    | WikiSyncUrl _ =>
        {| latency := 0; outcome := TransportError (ErrorObj "fetch failed") |}
    end.

(** A process that has just started, with the directory of whole
    documents. *)
Definition synced (net : nat -> forall T, Url T -> Reply T) : World :=
  {| clock := 1700000000000;
     network := net;
     requests := [];
     files := sync_files_whole;
     directory := Ok ["bob.json"; "carol.json"; "readme.txt"; "Dave.json"];
     itemMappingCache := None;
     itemMappingExpiry := 0;
     playerDataCache := ∅ |}.

(** ** Properties *)

(** *** Strings *)

Lemma startsWith_spec (s t : string) :
  startsWith s t = true <-> exists post, s = t +:+ post.
Proof.
  revert s. induction t as [|b t IH]; intros s; simpl.
  - split; [intros _; exists s; reflexivity | reflexivity].
  - destruct s as [|a s].
    + split; [discriminate | intros [post H]; discriminate].
    + destruct (decide (a = b)) as [->|Hab].
      * rewrite IH. split; intros [post H]; exists post.
        -- now rewrite H.
        -- now injection H.
      * split; [discriminate | intros [post H]; injection H; congruence].
Qed.

Lemma includes_spec (s t : string) :
  includes s t = true <-> exists pre post, s = pre +:+ t +:+ post.
Proof.
  induction s as [|a s IH]; simpl.
  - rewrite orb_false_r, startsWith_spec. split.
    + intros [post H]. exists "", post. exact H.
    + intros [pre [post H]]. destruct pre; [exists post; exact H | discriminate].
  - rewrite orb_true_iff, startsWith_spec, IH. split.
    + intros [[post H] | [pre [post H]]].
      * exists "", post. exact H.
      * exists (String a pre), post. simpl. now rewrite H.
    + intros [pre [post H]]. destruct pre as [|c pre]; simpl in H.
      * left. exists post. exact H.
      * right. exists pre, post. now injection H.
Qed.

Lemma includes_empty (s : string) : includes s "" = true.
Proof. destruct s; reflexivity. Qed.

(** *** Item resolver *)

Lemma find_first {A} (f : A -> bool) (l : list A) (x : A) :
  List.find f l = Some x ->
  exists before after,
    l = (before ++ x :: after)%list /\ f x = true /\
    Forall (fun e => f e = false) before.
Proof.
  induction l as [|a l IH]; simpl; [discriminate|].
  destruct (f a) eqn:Hfa.
  - intros [= ->]. exists [], l. repeat split; [exact Hfa | constructor].
  - intros H. destruct (IH H) as (before & after & -> & Hx & Hb).
    exists (a :: before), after. repeat split; [exact Hx | now constructor].
Qed.

Lemma find_none_Forall {A} (f : A -> bool) (l : list A) :
  List.find f l = None <-> Forall (fun e => f e = false) l.
Proof.
  induction l as [|a l IH]; simpl.
  - split; [constructor | reflexivity].
  - destruct (f a) eqn:Hfa.
    + split; [discriminate | intros H; inversion H; congruence].
    + rewrite IH. split; [now constructor | intros H; now inversion H].
Qed.

Lemma exact_test_spec (query itemName : string) :
  bool_decide (toLowerCase itemName = toLowerCase query) = true
  <-> same_ignoring_case itemName query.
Proof. unfold same_ignoring_case. now rewrite bool_decide_eq_true. Qed.

Lemma substring_test_spec (query itemName : string) :
  includes (toLowerCase itemName) (toLowerCase query) = true
  <-> contains_ignoring_case itemName query.
Proof. apply includes_spec. Qed.

(** The scan on a given table: first exact match, else first substring
    match, else nothing. *)
Lemma find_in_mapping_spec (mapping : WikiItemMapping) (name : string) :
  (Exists (fun e => same_ignoring_case (snd e) name) mapping ->
   exists id, find_in_mapping mapping name = Some id /\
              first_entry (fun n => same_ignoring_case n name) mapping id) /\
  (~ Exists (fun e => same_ignoring_case (snd e) name) mapping ->
   Exists (fun e => contains_ignoring_case (snd e) name) mapping ->
   exists id, find_in_mapping mapping name = Some id /\
              first_entry (fun n => contains_ignoring_case n name) mapping id) /\
  (~ Exists (fun e => same_ignoring_case (snd e) name) mapping ->
   ~ Exists (fun e => contains_ignoring_case (snd e) name) mapping ->
   find_in_mapping mapping name = None).
Proof.
  unfold find_in_mapping.
  destruct (List.find (fun e => bool_decide (toLowerCase (snd e) = toLowerCase name)) mapping)
    as [[id nm]|] eqn:Hexact.
  - apply find_first in Hexact as (before & after & Hm & Hx & Hb).
    simpl in Hx. apply exact_test_spec in Hx.
    assert (Hex : Exists (fun e => same_ignoring_case (snd e) name) mapping).
    { rewrite Hm. apply Exists_app. right. now constructor. }
    split; [|split]; [| intros Hn; now destruct Hn | intros Hn; now destruct Hn].
    intros _. exists id. split; [reflexivity|].
    exists before, nm, after. repeat split; [exact Hm | exact Hx |].
    eapply Forall_impl; [exact Hb|]. intros e He Hs. simpl in He.
    apply exact_test_spec in Hs. congruence.
  - apply find_none_Forall in Hexact.
    assert (Hnone : ~ Exists (fun e => same_ignoring_case (snd e) name) mapping).
    { intros Hex. apply Exists_exists in Hex as (e & Hin & Hs).
      rewrite Forall_forall in Hexact. specialize (Hexact e Hin).
      apply exact_test_spec in Hs. simpl in Hexact. congruence. }
    split; [intros Hex; now destruct Hnone|].
    destruct (List.find (fun e => includes (toLowerCase (snd e)) (toLowerCase name)) mapping)
      as [[id nm]|] eqn:Hsub.
    + apply find_first in Hsub as (before & after & Hm & Hx & Hb).
      simpl in Hx. apply substring_test_spec in Hx.
      split.
      * intros _ _. exists id. split; [reflexivity|].
        exists before, nm, after. repeat split; [exact Hm | exact Hx |].
        eapply Forall_impl; [exact Hb|]. intros e He Hs. simpl in He.
        apply substring_test_spec in Hs. congruence.
      * intros _ Hn. destruct Hn. rewrite Hm. apply Exists_app. right.
        now constructor.
    + apply find_none_Forall in Hsub. split; [|reflexivity].
      intros _ Hex. apply Exists_exists in Hex as (e & Hin & Hs).
      rewrite Forall_forall in Hsub. specialize (Hsub e Hin).
      apply substring_test_spec in Hs. simpl in Hsub. congruence.
Qed.

(** [findItemId] is the scan applied to whatever [getItemMapping] returns. *)
Lemma findItemId_unfold (name : string) (w : World) :
  findItemId name w =
  match getItemMapping w with
  | (Ok mapping, w') => (Ok (find_in_mapping mapping name), w')
  | (Throw e, w') => (Throw e, w')
  end.
Proof. reflexivity. Qed.

(** C3. Whatever table the mapping cache yields, [findItemId] returns the
    key of the first entry (in the enumeration order of the table) whose
    name equals the query up to case; if there is none, the key of the first
    entry whose name contains the query up to case; if there is none
    either, [null]. *)
Theorem findItemId_exact_then_substring
    (name : string) (w w' : World) (mapping : WikiItemMapping) :
  getItemMapping w = (Ok mapping, w') ->
  exists r, findItemId name w = (Ok r, w') /\
    (Exists (fun e => same_ignoring_case (snd e) name) mapping ->
     exists id, r = Some id /\
                first_entry (fun n => same_ignoring_case n name) mapping id) /\
    (~ Exists (fun e => same_ignoring_case (snd e) name) mapping ->
     Exists (fun e => contains_ignoring_case (snd e) name) mapping ->
     exists id, r = Some id /\
                first_entry (fun n => contains_ignoring_case n name) mapping id) /\
    (~ Exists (fun e => same_ignoring_case (snd e) name) mapping ->
     ~ Exists (fun e => contains_ignoring_case (snd e) name) mapping ->
     r = None).
Proof.
  intros Hmap. exists (find_in_mapping mapping name).
  rewrite findItemId_unfold, Hmap. split; [reflexivity|].
  apply find_in_mapping_spec.
Qed.

(** *** Remote fetch helpers *)

(** Case analysis on the reply to the next request for [url]: the request is
    rejected, or answered with a status inside or outside the success range
    and a body that parses or not. *)
Ltac reply_cases w url :=
  let e := fresh "e" in
  let st := fresh "st" in
  let d := fresh "d" in
  destruct (outcome (next_reply w url)) as [e|st [d|e]];
  try destruct ((200 <=? st) && (st <=? 299));
  try match goal with
      | |- context [no_data ?j] => destruct (no_data j)
      end.

Lemma pricesFetch_unfold {T} (path : PricesPath T) (w : World) :
  pricesFetch path w =
  match outcome (next_reply w (PricesUrl path)) with
  | TransportError e => (Throw e, requested (PricesUrl path) w)
  | HttpResponse st body =>
      if (200 <=? st) && (st <=? 299)
      then (body, requested (PricesUrl path) w)
      else (Throw (ErrorObj ("Prices API returned " +:+ pretty st)),
            requested (PricesUrl path) w)
  end.
Proof.
  unfold pricesFetch, bind, fetch.
  destruct (outcome (next_reply w (PricesUrl path))) as [e|st body]; [reflexivity|].
  unfold ok; simpl. destruct ((200 <=? st) && (st <=? 299)); reflexivity.
Qed.

Lemma wikiFetch_unfold {T} (params : WikiParams T) (w : World) :
  wikiFetch params w =
  match outcome (next_reply w (WikiUrl params)) with
  | TransportError e => (Throw e, requested (WikiUrl params) w)
  | HttpResponse st body =>
      if (200 <=? st) && (st <=? 299)
      then (body, requested (WikiUrl params) w)
      else (Throw (ErrorObj ("Wiki API returned " +:+ pretty st)),
            requested (WikiUrl params) w)
  end.
Proof.
  unfold wikiFetch, bind, fetch.
  destruct (outcome (next_reply w (WikiUrl params))) as [e|st body]; [reflexivity|].
  unfold ok; simpl. destruct ((200 <=? st) && (st <=? 299)); reflexivity.
Qed.

Lemma pricesFetch_payload {T} (path : PricesPath T) (w : World) (body : T) :
  payload (next_reply w (PricesUrl path)) = Some body ->
  pricesFetch path w = (Ok body, requested (PricesUrl path) w).
Proof.
  rewrite pricesFetch_unfold. unfold payload.
  destruct (outcome (next_reply w (PricesUrl path))) as [e|st [b|e]];
    try discriminate.
  destruct ((200 <=? st) && (st <=? 299)); [|discriminate].
  now intros [= ->].
Qed.

Lemma pricesFetch_no_payload {T} (path : PricesPath T) (w : World) :
  payload (next_reply w (PricesUrl path)) = None ->
  exists e, pricesFetch path w = (Throw e, requested (PricesUrl path) w).
Proof.
  rewrite pricesFetch_unfold. unfold payload.
  destruct (outcome (next_reply w (PricesUrl path))) as [e|st [b|e]].
  - intros _. now exists e.
  - destruct ((200 <=? st) && (st <=? 299)); [discriminate|]. intros _. eauto.
  - intros _. destruct ((200 <=? st) && (st <=? 299)); eauto.
Qed.

(** *** Item mapping cache *)

Lemma getItemMapping_fresh (w : World) :
  mapping_fresh w = true ->
  exists m, itemMappingCache w = Some m /\ getItemMapping w = (Ok m, w).
Proof.
  unfold mapping_fresh, getItemMapping, bind, get_itemMappingCache, Date_now,
    get_itemMappingExpiry.
  destruct (itemMappingCache w) as [m|]; [|discriminate].
  intros ->. now exists m.
Qed.

(** Outside the TTL window the call is one [pricesFetch] followed, when it
    returns, by the two assignments. *)
Lemma getItemMapping_stale (w : World) :
  mapping_fresh w = false ->
  getItemMapping w =
  match pricesFetch mapping_path w with
  | (Ok data, w1) =>
      (Ok (build_mapping data),
       with_itemMappingExpiry (clock w1 + CACHE_TTL)
         (with_itemMappingCache (build_mapping data) w1))
  | (Throw e, w1) => (Throw e, w1)
  end.
Proof.
  unfold mapping_fresh, getItemMapping, bind, get_itemMappingCache, Date_now,
    get_itemMappingExpiry.
  destruct (itemMappingCache w) as [m|].
  - intros ->. destruct (pricesFetch mapping_path w) as [[data|e] w1]; reflexivity.
  - intros _. destruct (pricesFetch mapping_path w) as [[data|e] w1]; reflexivity.
Qed.

Lemma getItemMapping_stale_requests (w : World) :
  mapping_fresh w = false ->
  requests (snd (getItemMapping w))
  = (requests w ++ [Get (PricesUrl mapping_path)])%list.
Proof.
  intros Hs. rewrite (getItemMapping_stale w Hs), pricesFetch_unfold.
  reply_cases w (PricesUrl mapping_path); reflexivity.
Qed.

Lemma getItemMapping_stale_success (w : World) (body : MappingBody) :
  mapping_fresh w = false ->
  payload (next_reply w (PricesUrl mapping_path)) = Some body ->
  fst (getItemMapping w) = Ok (build_mapping body) /\
  itemMappingCache (snd (getItemMapping w)) = Some (build_mapping body) /\
  itemMappingExpiry (snd (getItemMapping w))
  = clock (snd (getItemMapping w)) + 3600000 /\
  clock (snd (getItemMapping w))
  = clock w + Z.of_N (latency (next_reply w (PricesUrl mapping_path))).
Proof.
  intros Hs Hp. rewrite (getItemMapping_stale w Hs), (pricesFetch_payload _ _ _ Hp).
  simpl. repeat split; reflexivity.
Qed.

Lemma getItemMapping_stale_failure (w : World) :
  mapping_fresh w = false ->
  payload (next_reply w (PricesUrl mapping_path)) = None ->
  (exists e, fst (getItemMapping w) = Throw e) /\
  itemMappingCache (snd (getItemMapping w)) = itemMappingCache w /\
  itemMappingExpiry (snd (getItemMapping w)) = itemMappingExpiry w.
Proof.
  intros Hs Hp. rewrite (getItemMapping_stale w Hs).
  destruct (pricesFetch_no_payload _ _ Hp) as [e ->]. simpl. eauto.
Qed.

(** The clock never runs backwards during a call. *)
Lemma getItemMapping_clock (w : World) :
  clock w <= clock (snd (getItemMapping w)).
Proof.
  destruct (mapping_fresh w) eqn:Hf.
  - destruct (getItemMapping_fresh w Hf) as (m & _ & ->). simpl. lia.
  - rewrite (getItemMapping_stale w Hf), pricesFetch_unfold.
    reply_cases w (PricesUrl mapping_path); simpl; lia.
Qed.

(** A call adds at most one request to the log. *)
Lemma getItemMapping_at_most_one (w : World) :
  (length (requests (snd (getItemMapping w))) <= length (requests w) + 1)%nat.
Proof.
  destruct (mapping_fresh w) eqn:Hf.
  - destruct (getItemMapping_fresh w Hf) as (m & _ & ->). simpl. lia.
  - rewrite (getItemMapping_stale_requests w Hf), length_app. simpl. lia.
Qed.

(** Any number of resolutions that all start inside the TTL window of the
    cached table issue no request and leave table and expiry alone. *)
Lemma resolutions_within_ttl (gaps : list N) (w : World) (m : WikiItemMapping) :
  itemMappingCache w = Some m ->
  clock w + total_time gaps < itemMappingExpiry w ->
  requests (resolutions gaps w) = requests w /\
  itemMappingCache (resolutions gaps w) = Some m /\
  itemMappingExpiry (resolutions gaps w) = itemMappingExpiry w.
Proof.
  revert w. induction gaps as [|dt gaps IH]; intros w Hc Ht; simpl.
  - auto.
  - simpl in Ht.
    assert (Hfresh : mapping_fresh (elapse dt w) = true).
    { unfold mapping_fresh. simpl. rewrite Hc. apply Z.ltb_lt.
      assert (0 <= total_time gaps).
      { clear. induction gaps as [|x gaps IHg]; simpl; lia. }
      lia. }
    destruct (getItemMapping_fresh _ Hfresh) as (m' & _ & ->). simpl.
    destruct (IH (elapse dt w)) as (Hr & Hc' & He); [exact Hc | simpl; lia |].
    simpl in Hr, Hc', He. auto.
Qed.

(** C5. A resolution inside the TTL window of a cached table returns that
    table and issues no request.  Any other resolution issues exactly one
    request for the mapping.  When that request succeeds, the table built
    from its body replaces the cached one whatever it was, and the expiry
    becomes the time at which the request completed plus one hour; when it
    fails the call throws and leaves table and expiry as they were.  A
    resolution that returns, followed by a second one less than one hour
    after the first began, issue at most one request between them; and any
    sequence of resolutions that ends before the expiry of a cached table
    issues no request at all. *)
Theorem mapping_cache_ttl (w : World) :
  (mapping_fresh w = true ->
   exists m, itemMappingCache w = Some m /\ getItemMapping w = (Ok m, w)) /\
  (mapping_fresh w = false ->
   requests (snd (getItemMapping w))
   = (requests w ++ [Get (PricesUrl mapping_path)])%list) /\
  (forall body,
   mapping_fresh w = false ->
   payload (next_reply w (PricesUrl mapping_path)) = Some body ->
   fst (getItemMapping w) = Ok (build_mapping body) /\
   itemMappingCache (snd (getItemMapping w)) = Some (build_mapping body) /\
   itemMappingExpiry (snd (getItemMapping w))
   = clock (snd (getItemMapping w)) + 3600000 /\
   clock (snd (getItemMapping w))
   = clock w + Z.of_N (latency (next_reply w (PricesUrl mapping_path)))) /\
  (mapping_fresh w = false ->
   payload (next_reply w (PricesUrl mapping_path)) = None ->
   (exists e, fst (getItemMapping w) = Throw e) /\
   itemMappingCache (snd (getItemMapping w)) = itemMappingCache w /\
   itemMappingExpiry (snd (getItemMapping w)) = itemMappingExpiry w) /\
  (forall (dt : N) (m : WikiItemMapping),
   fst (getItemMapping w) = Ok m ->
   clock (elapse dt (snd (getItemMapping w))) < clock w + 3600000 ->
   (length (requests (snd (getItemMapping (elapse dt (snd (getItemMapping w))))))
    <= length (requests w) + 1)%nat) /\
  (forall (gaps : list N) (m : WikiItemMapping),
   itemMappingCache w = Some m ->
   clock w + total_time gaps < itemMappingExpiry w ->
   requests (resolutions gaps w) = requests w /\
   itemMappingCache (resolutions gaps w) = Some m /\
   itemMappingExpiry (resolutions gaps w) = itemMappingExpiry w).
Proof.
  split; [apply getItemMapping_fresh|].
  split; [apply getItemMapping_stale_requests|].
  split; [intros body; apply getItemMapping_stale_success|].
  split; [apply getItemMapping_stale_failure|].
  split; [|intros gaps m; apply resolutions_within_ttl].
  intros dt m Hok Hdt.
  destruct (mapping_fresh w) eqn:Hf.
  - destruct (getItemMapping_fresh w Hf) as (m' & _ & Hrun).
    rewrite Hrun. simpl.
    pose proof (getItemMapping_at_most_one (elapse dt w)) as H.
    simpl in H. exact H.
  - destruct (payload (next_reply w (PricesUrl mapping_path))) as [body|] eqn:Hp.
    + destruct (getItemMapping_stale_success w body Hf Hp) as (_ & Hc & He & Hclk).
      assert (Hfresh : mapping_fresh (elapse dt (snd (getItemMapping w))) = true).
      { unfold mapping_fresh. simpl. rewrite Hc, He.
        simpl in Hdt. apply Z.ltb_lt.
        pose proof (getItemMapping_clock w). lia. }
      destruct (getItemMapping_fresh _ Hfresh) as (m' & _ & ->). simpl.
      apply getItemMapping_at_most_one.
    + destruct (getItemMapping_stale_failure w Hf Hp) as ([e He] & _).
      congruence.
Qed.

(** *** WikiSync player cache *)

(** The whole behaviour of [fetchWikiSyncPlayer], by cases on the cache and
    on the reply. *)
Lemma fetchWikiSyncPlayer_unfold (username : string) (forceRefresh : bool)
    (w : World) :
  fetchWikiSyncPlayer username forceRefresh w =
  match served_from_cache w username forceRefresh with
  | Some cache => (Ok {| data := Some (ce_data cache); message := None |}, w)
  | None =>
      let w1 := requested (WikiSyncUrl username) w in
      match outcome (next_reply w (WikiSyncUrl username)) with
      | TransportError e =>
          (Ok {| data := None; message := Some ("Error: " +:+ error_text e) |}, w1)
      | HttpResponse st body =>
          if (200 <=? st) && (st <=? 299) then
            match body with
            | Ok d =>
                if no_data d
                then (Ok {| data := None; message := Some NO_PLAYER_DATA |}, w1)
                else (Ok {| data := Some d; message := None |},
                      with_playerData username
                        {| ce_data := d; fetchedAt := clock w |} w1)
            | Throw e =>
                (Ok {| data := None; message := Some ("Error: " +:+ error_text e) |},
                 w1)
            end
          else
            (Ok {| data := None;
                   message := Some ("WikiSync API returned " +:+ pretty st) |}, w1)
      end
  end.
Proof.
  assert (Hlive :
    try_catch
      (let* resp := fetch (WikiSyncUrl username) in
       if negb (ok resp)
       then ret {| data := None;
                   message := Some ("WikiSync API returned " +:+ pretty (status resp)) |}
       else
         let* data := settle (json resp) in
         if no_data data
         then ret {| data := None; message := Some NO_PLAYER_DATA |}
         else
           do set_playerDataCache username
                {| ce_data := data; fetchedAt := clock w |} then
           ret {| data := Some data; message := None |})
      (fun err =>
         ret {| data := None; message := Some ("Error: " +:+ error_text err) |}) w
    = let w1 := requested (WikiSyncUrl username) w in
      match outcome (next_reply w (WikiSyncUrl username)) with
      | TransportError e =>
          (Ok {| data := None; message := Some ("Error: " +:+ error_text e) |}, w1)
      | HttpResponse st body =>
          if (200 <=? st) && (st <=? 299) then
            match body with
            | Ok d =>
                if no_data d
                then (Ok {| data := None; message := Some NO_PLAYER_DATA |}, w1)
                else (Ok {| data := Some d; message := None |},
                      with_playerData username
                        {| ce_data := d; fetchedAt := clock w |} w1)
            | Throw e =>
                (Ok {| data := None; message := Some ("Error: " +:+ error_text e) |},
                 w1)
            end
          else
            (Ok {| data := None;
                   message := Some ("WikiSync API returned " +:+ pretty st) |}, w1)
      end).
  { unfold try_catch, bind, fetch.
    destruct (outcome (next_reply w (WikiSyncUrl username))) as [e|st body];
      [reflexivity|].
    unfold ok; simpl. destruct ((200 <=? st) && (st <=? 299)); [|reflexivity].
    simpl. destruct body as [d|e]; [|reflexivity].
    unfold settle. destruct (no_data d); reflexivity. }
  unfold fetchWikiSyncPlayer, served_from_cache, bind, Date_now,
    get_playerDataCache.
  destruct (playerDataCache w !! username) as [cache|]; [|exact Hlive].
  destruct (negb forceRefresh && (clock w - fetchedAt cache <? 3600000));
    [reflexivity | exact Hlive].
Qed.


Lemma served_from_cache_within_hour (w : World) (username : string)
    (entry : CacheEntry) :
  playerDataCache w !! username = Some entry ->
  clock w - fetchedAt entry < 3600000 ->
  served_from_cache w username false = Some entry.
Proof.
  intros He Hlt. unfold served_from_cache. rewrite He. simpl.
  apply Z.ltb_lt in Hlt. now rewrite Hlt.
Qed.


Lemma fetchWikiSyncPlayer_stores (username : string) (forceRefresh : bool)
    (w : World) (body : Json) :
  served_from_cache w username forceRefresh = None ->
  payload (next_reply w (WikiSyncUrl username)) = Some body ->
  no_data body = false ->
  fetchWikiSyncPlayer username forceRefresh w
  = (Ok {| data := Some body; message := None |},
     with_playerData username {| ce_data := body; fetchedAt := clock w |}
       (requested (WikiSyncUrl username) w)).
Proof.
  intros Hs Hp Hn. rewrite fetchWikiSyncPlayer_unfold, Hs. simpl.
  unfold payload in Hp.
  destruct (outcome (next_reply w (WikiSyncUrl username))) as [e|st [d|e]];
    try discriminate.
  destruct ((200 <=? st) && (st <=? 299)); [|discriminate].
  injection Hp as ->. now rewrite Hn.
Qed.

(** Every call that does not store a reply leaves the cache as it was. *)
Lemma fetchWikiSyncPlayer_frame (username : string) (forceRefresh : bool)
    (w : World) :
  is_Some (served_from_cache w username forceRefresh) \/
  nonempty_success (next_reply w (WikiSyncUrl username)) = false ->
  playerDataCache (snd (fetchWikiSyncPlayer username forceRefresh w))
  = playerDataCache w.
Proof.
  rewrite fetchWikiSyncPlayer_unfold. unfold nonempty_success, payload.
  destruct (served_from_cache w username forceRefresh) as [c|] eqn:Hs.
  - intros _. reflexivity.
  - intros [[c Hc] | Hne]; [discriminate|]. simpl.
    reply_cases w (WikiSyncUrl username); try reflexivity; discriminate.
Qed.

Lemma fetchWikiSyncPlayer_clock (username : string) (forceRefresh : bool)
    (w : World) :
  clock w <= clock (snd (fetchWikiSyncPlayer username forceRefresh w)).
Proof.
  rewrite fetchWikiSyncPlayer_unfold.
  destruct (served_from_cache w username forceRefresh) as [c|]; simpl; [lia|].
  reply_cases w (WikiSyncUrl username); simpl; lia.
Qed.

(** The three messages differ already in their first character. *)
Lemma no_player_data_distinct (st : Z) (e : Thrown) :
  NO_PLAYER_DATA <> "WikiSync API returned " +:+ pretty st /\
  NO_PLAYER_DATA <> "Error: " +:+ error_text e.
Proof. split; discriminate. Qed.


(** C8. A call that issues a request returns a value in every case.  A
    non-success status yields no data and a message with the status; a
    rejected [fetch] or a body that does not parse yields no data and a
    message with the error text; a success response whose body is the empty
    object yields no data and the "no player data" message, which differs
    from both failure messages.  In none of these cases is the cache
    written. *)
Theorem player_fetch_failures (username : string) (forceRefresh : bool)
    (w : World) :
  served_from_cache w username forceRefresh = None ->
  let reply := next_reply w (WikiSyncUrl username) in
  let run := fetchWikiSyncPlayer username forceRefresh w in
  (exists result, fst run = Ok result) /\
  (forall st body,
   outcome reply = HttpResponse st body ->
   (200 <=? st) && (st <=? 299) = false ->
   fst run = Ok {| data := None;
                   message := Some ("WikiSync API returned " +:+ pretty st) |} /\
   playerDataCache (snd run) = playerDataCache w) /\
  (forall e,
   outcome reply = TransportError e ->
   fst run = Ok {| data := None; message := Some ("Error: " +:+ error_text e) |} /\
   playerDataCache (snd run) = playerDataCache w) /\
  (forall st e,
   outcome reply = HttpResponse st (Throw e) ->
   (200 <=? st) && (st <=? 299) = true ->
   fst run = Ok {| data := None; message := Some ("Error: " +:+ error_text e) |} /\
   playerDataCache (snd run) = playerDataCache w) /\
  (forall st,
   outcome reply = HttpResponse st (Ok (JObject [])) ->
   (200 <=? st) && (st <=? 299) = true ->
   fst run = Ok {| data := None; message := Some NO_PLAYER_DATA |} /\
   playerDataCache (snd run) = playerDataCache w) /\
  (forall (st : Z) (e : Thrown),
   NO_PLAYER_DATA <> "WikiSync API returned " +:+ pretty st /\
   NO_PLAYER_DATA <> "Error: " +:+ error_text e).
Proof.
  intros Hs reply run. subst reply run.
  rewrite fetchWikiSyncPlayer_unfold, Hs. simpl.
  split; [|split; [|split; [|split; [|split]]]].
  - reply_cases w (WikiSyncUrl username); simpl; eauto.
  - intros st body -> ->. split; reflexivity.
  - intros e ->. split; reflexivity.
  - intros st e -> ->. split; reflexivity.
  - intros st -> ->. split; reflexivity.
  - apply no_player_data_distinct.
Qed.

(** C10. A call that is served from the cache, or whose reply is anything
    but a success response with a non-empty body, leaves [playerDataCache]
    equal to what it was; so an entry of [username] that was there keeps its
    payload and its [fetchedAt], and a later unforced call less than one hour
    after that [fetchedAt] is served that payload without a request. *)
Theorem player_cache_frame (username : string) (forceRefresh : bool)
    (w : World) :
  is_Some (served_from_cache w username forceRefresh) \/
  nonempty_success (next_reply w (WikiSyncUrl username)) = false ->
  let w1 := snd (fetchWikiSyncPlayer username forceRefresh w) in
  playerDataCache w1 = playerDataCache w /\
  forall (entry : CacheEntry) (dt : N),
    playerDataCache w !! username = Some entry ->
    clock (elapse dt w1) - fetchedAt entry < 3600000 ->
    fetchWikiSyncPlayer username false (elapse dt w1)
    = (Ok {| data := Some (ce_data entry); message := None |}, elapse dt w1).
Proof.
  intros H w1.
  pose proof (fetchWikiSyncPlayer_frame username forceRefresh w H) as Hframe.
  fold w1 in Hframe. split; [exact Hframe|].
  intros entry dt He Hdt. rewrite fetchWikiSyncPlayer_unfold.
  erewrite served_from_cache_within_hour; [reflexivity | | exact Hdt].
  simpl. now rewrite Hframe.
Qed.

(** *** Player sync store *)

Lemma getPlayerSyncData_unfold (username : string) (w : World) :
  getPlayerSyncData username w =
  match files w (join SYNC_DIR (sync_filename username)) with
  | Ok raw =>
      match JSON_parse raw with
      | Ok doc => (Ok doc, w)
      | Throw _ => (Ok None, w)
      end
  | Throw _ => (Ok None, w)
  end.
Proof.
  unfold getPlayerSyncData, try_catch, bind, readFile, settle, ret.
  destruct (files w (join SYNC_DIR (sync_filename username))) as [raw|e];
    [|reflexivity].
  destruct (JSON_parse raw); reflexivity.
Qed.



Lemma get_my_bank_unfold (username : string) (search : option string)
    (tab minQuantity : option Z) (w : World) :
  get_my_bank username search tab minQuantity w =
  match getPlayerSyncData username w with
  | (Ok None, w') => (Ok (BankNoSyncedData username), w')
  | (Ok (Some doc), w') =>
      match bank doc ≫= tabs with
      | None => (Ok (BankNoBankData username), w')
      | Some ts =>
          (Ok match bank_items ts search tab minQuantity with
              | [] => BankNoMatch username
              | allItems => BankListing username allItems
              end, w')
      end
  | (Throw e, w') => (Throw e, w')
  end.
Proof.
  unfold get_my_bank, bind.
  destruct (getPlayerSyncData username w) as [[[doc|]|e] w']; try reflexivity.
  destruct (bank doc ≫= tabs) as [ts|]; [|reflexivity].
  destruct (bank_items ts search tab minQuantity); reflexivity.
Qed.

Lemma get_my_stats_unfold (username : string) (skill : option string)
    (w : World) :
  get_my_stats username skill w =
  match getPlayerSyncData username w with
  | (Ok None, w') => (Ok (StatsNoSyncedData username), w')
  | (Ok (Some doc), w') =>
      match skills doc with
      | None => (Ok (StatsNoSkillData username), w')
      | Some sk =>
          (Ok match skill with
              | Some s => if bool_decide (s = "") then SkillListing username sk
                          else single_skill username sk s
              | None => SkillListing username sk
              end, w')
      end
  | (Throw e, w') => (Throw e, w')
  end.
Proof.
  unfold get_my_stats, bind.
  destruct (getPlayerSyncData username w) as [[[doc|]|e] w']; try reflexivity.
  destruct (skills doc) as [sk|]; [|reflexivity].
  destruct skill as [s|]; [|reflexivity].
  destruct (bool_decide (s = "")); reflexivity.
Qed.

(** C9. When the sync file of [username] cannot be read, whatever the error
    (absent, unreadable), or is read but does not parse, [getPlayerSyncData]
    returns [null] without throwing and without any other effect: the same
    result in every case, and the one the tools report as "no synced
    data". *)
Theorem sync_read_failure_is_missing (username : string) (w : World) :
  (exists e, files w (join SYNC_DIR (sync_filename username)) = Throw e) \/
  (exists raw e, files w (join SYNC_DIR (sync_filename username)) = Ok raw /\
                 JSON_parse raw = Throw e) ->
  getPlayerSyncData username w = (Ok None, w) /\
  (forall skill,
   get_my_stats username skill w = (Ok (StatsNoSyncedData username), w)) /\
  (forall search tab minQuantity,
   get_my_bank username search tab minQuantity w
   = (Ok (BankNoSyncedData username), w)).
Proof.
  intros H.
  assert (Hnull : getPlayerSyncData username w = (Ok None, w)).
  { rewrite getPlayerSyncData_unfold.
    destruct H as [[e ->] | (raw & e & -> & ->)]; reflexivity. }
  split; [exact Hnull|]. split.
  - intros skill. now rewrite get_my_stats_unfold, Hnull.
  - intros search tab minQuantity. now rewrite get_my_bank_unfold, Hnull.
Qed.

(** *** Bank query *)

Lemma filter_filter_andb {A} (f g : A -> bool) (l : list A) :
  List.filter f (List.filter g l) = List.filter (fun x => g x && f x) l.
Proof.
  induction l as [|a l IH]; simpl; [reflexivity|].
  destruct (g a); simpl; [|exact IH].
  destruct (f a); now rewrite IH.
Qed.

Lemma filter_true {A} (l : list A) : List.filter (fun _ => true) l = l.
Proof. induction l as [|a l IH]; simpl; now rewrite ?IH. Qed.




Lemma filter_ext_bool {A} (f g : A -> bool) (l : list A) :
  (forall x, f x = g x) -> List.filter f l = List.filter g l.
Proof.
  intros H. induction l as [|a l IH]; simpl; [reflexivity|].
  now rewrite H, IH.
Qed.




(** *** Skill query *)

Lemma obj_get_None {V} (key : string) (o : JsObject V) :
  obj_get key o = None <-> ~ In key (obj_keys o).
Proof.
  unfold obj_get, obj_keys. induction o as [|[k v] o IH]; simpl.
  - split; [intros _ []| reflexivity].
  - destruct (bool_decide (k = key)) eqn:Hk; simpl.
    + apply bool_decide_eq_true in Hk. split; [discriminate | intros H; tauto].
    + apply bool_decide_eq_false in Hk. rewrite IH. tauto.
Qed.

Lemma obj_get_In {V} (key : string) (v : V) (o : JsObject V) :
  NoDup (obj_keys o) -> In (key, v) o -> obj_get key o = Some v.
Proof.
  unfold obj_get, obj_keys. induction o as [|[k v'] o IH]; simpl; [tauto|].
  intros Hnd [Heq | Hin].
  - injection Heq as -> ->. now rewrite bool_decide_true.
  - apply NoDup_cons in Hnd as [Hk Hnd].
    destruct (bool_decide (k = key)) eqn:Hkey; simpl.
    + apply bool_decide_eq_true in Hkey. subst k. destruct Hk.
      apply list_elem_of_In, in_map_iff. now exists (key, v).
    + now apply IH.
Qed.

Lemma single_skill_found (username : string) (sk : JsObject SkillEntry)
    (skill : string) (entry : SkillEntry) :
  NoDup (obj_keys sk) ->
  In (toUpperCase skill, entry) sk ->
  single_skill username sk skill
  = SkillDetail username (toUpperCase skill) (level entry) (xp entry).
Proof.
  intros Hnd Hin. unfold single_skill.
  now rewrite (obj_get_In _ _ _ Hnd Hin).
Qed.

Lemma single_skill_not_found (username : string) (sk : JsObject SkillEntry)
    (skill : string) :
  ~ In (toUpperCase skill) (obj_keys sk) <->
  single_skill username sk skill = SkillNotFound skill (obj_keys sk).
Proof.
  unfold single_skill. rewrite <- obj_get_None.
  destruct (obj_get (toUpperCase skill) sk); split; congruence.
Qed.

(** C4. The single-skill lookup puts its argument in upper case and reads
    the entry stored under exactly that key: it returns the level and xp of
    that entry, and reports "skill not found" exactly when the document has
    no such key.  On a document whose keys are all in upper case this is the
    lookup up to case: the entry whose key equals the argument up to case is
    returned, and "skill not found" is reported exactly when no key equals
    the argument up to case. *)
Theorem skill_lookup_by_upper_cased_key (username : string) (w : World)
    (doc : PlayerSyncData) (sk : JsObject SkillEntry) (skill : string) :
  getPlayerSyncData username w = (Ok (Some doc), w) ->
  skills doc = Some sk ->
  NoDup (obj_keys sk) ->
  skill <> "" ->
  (forall entry,
   In (toUpperCase skill, entry) sk ->
   get_my_stats username (Some skill) w
   = (Ok (SkillDetail username (toUpperCase skill) (level entry) (xp entry)), w)) /\
  (~ In (toUpperCase skill) (obj_keys sk) <->
   get_my_stats username (Some skill) w
   = (Ok (SkillNotFound skill (obj_keys sk)), w)) /\
  ((forall key, In key (obj_keys sk) -> toUpperCase key = key) ->
   (forall key entry,
    In (key, entry) sk -> same_skill_key key skill ->
    get_my_stats username (Some skill) w
    = (Ok (SkillDetail username key (level entry) (xp entry)), w)) /\
   ((forall key, In key (obj_keys sk) -> ~ same_skill_key key skill) <->
    get_my_stats username (Some skill) w
    = (Ok (SkillNotFound skill (obj_keys sk)), w))).
Proof.
  intros Hdoc Hsk Hnd Hne.
  assert (Hrun : get_my_stats username (Some skill) w
                 = (Ok (single_skill username sk skill), w)).
  { rewrite get_my_stats_unfold, Hdoc, Hsk.
    now rewrite bool_decide_false. }
  rewrite Hrun.
  assert (Hnf : ~ In (toUpperCase skill) (obj_keys sk) <->
                (Ok (single_skill username sk skill), w)
                = (Ok (SkillNotFound skill (obj_keys sk)), w)).
  { rewrite single_skill_not_found. split; [intros ->; reflexivity|].
    intros [= ->]. reflexivity. }
  split; [|split].
  - intros entry Hin. now rewrite (single_skill_found _ _ _ _ Hnd Hin).
  - exact Hnf.
  - intros Hupper. split.
    + intros key entry Hin Hsame.
      assert (Hkey : key = toUpperCase skill).
      { rewrite <- Hsame. symmetry. apply Hupper.
        unfold obj_keys. apply in_map_iff. now exists (key, entry). }
      subst key. now rewrite (single_skill_found _ _ _ _ Hnd Hin).
    + rewrite <- Hnf. split.
      * intros Hall Hin. apply (Hall _ Hin). unfold same_skill_key.
        now rewrite (Hupper _ Hin).
      * intros Hnot key Hin Hsame. apply Hnot.
        unfold same_skill_key in Hsame. rewrite <- Hsame, (Hupper _ Hin).
        exact Hin.
Qed.

(** *** Price lookup *)



Lemma price_tool_unfold (item : string) (w : World) :
  price_tool item w =
  match findItemId item w with
  | (Ok (Some itemId), w1) => price_of item itemId w1
  | (Ok None, w1) => (Ok (ItemNotFound item), w1)
  | (Throw e, w1) => (Throw e, w1)
  end.
Proof.
  unfold price_tool, bind.
  destruct (findItemId item w) as [[[itemId|]|e] w1]; reflexivity.
Qed.

Lemma price_of_unfold (item : string) (itemId : ItemId) (w : World) :
  price_of item itemId w =
  match pricesFetch (latest_path itemId) w with
  | (Ok data, w1) =>
      match pr_data data ≫= (fun d => d !! itemId) with
      | None => (Ok (NoPriceData item), w1)
      | Some price =>
          match getItemMapping w1 with
          | (Ok mapping, w2) =>
              let name := default item (mapping_get itemId mapping) in
              match (match high price with
                     | Some h => let* ago := ago_suffix (highTime price) in
                                 ret ([Heading name] ++ [BuyLine h ago])%list
                     | None => ret [Heading name]
                     end) w2 with
              | (Ok lines, w3) =>
                  match (match low price with
                         | Some l => let* ago := ago_suffix (lowTime price) in
                                     ret (lines ++ [SellLine l ago])%list
                         | None => ret lines
                         end) w3 with
                  | (Ok lines', w4) =>
                      (Ok (PriceQuote (lines' ++ [BlankLine; UrlLine name])%list), w4)
                  | (Throw e, w4) => (Throw e, w4)
                  end
              | (Throw e, w3) => (Throw e, w3)
              end
          | (Throw e, w2) => (Throw e, w2)
          end
      end
  | (Throw e, w1) => (Throw e, w1)
  end.
Proof.
  unfold price_of, bind.
  destruct (pricesFetch (latest_path itemId) w) as [[data|e] w1]; [|reflexivity].
  destruct (pr_data data ≫= (fun d => d !! itemId)) as [price|]; [|reflexivity].
  destruct (getItemMapping w1) as [[mapping|e] w2]; reflexivity.
Qed.



(** *** Failures: returned or thrown *)


Lemma search_tool_unfold (query : string) (limit : Z) (w : World) :
  search_tool query limit w =
  match wikiFetch (search_params query limit) w with
  | (Ok data, w1) =>
      (Ok match default [] (wsr_query data ≫= (fun q => q)) with
          | [] => SearchNoResults query
          | results => SearchFound results
          end, w1)
  | (Throw e, w1) => (Throw e, w1)
  end.
Proof.
  unfold search_tool, bind.
  destruct (wikiFetch (search_params query limit) w) as [[data|e] w1];
    [|reflexivity].
  destruct (default [] (wsr_query data ≫= (fun q => q))); reflexivity.
Qed.


(** ** Further properties of the program *)

Set Default Proof Using "Type".

(** [tauto] once the built-ins of the runtime that the goal does not
    mention are out of the context. *)
Ltac plain_tauto :=
  repeat match goal with
         | f : string -> string |- _ => clear f
         | f : string -> Res _ |- _ => clear f
         | d : string |- _ => clear d
         end;
  tauto.

(** *** Staleness of a price *)

Lemma formatTimeAgo_time_ago (unixSeconds : Z) (w : World) :
  formatTimeAgo unixSeconds w = (Ok (time_ago (clock w) unixSeconds), w).
Proof.
  unfold formatTimeAgo, time_ago, bind, Date_now, ret.
  destruct (clock w / 1000 - unixSeconds <? 60); [reflexivity|].
  destruct (clock w / 1000 - unixSeconds <? 3600); [reflexivity|].
  destruct (clock w / 1000 - unixSeconds <? 86400); reflexivity.
Qed.

(** X1. [formatTimeAgo] reads the clock once and changes nothing.  With
    [diff] the whole seconds elapsed since the timestamp: below 60, which
    includes every timestamp in the future, the text is "just now"; below
    3600 it counts whole minutes, between 1 and 59; below 86400 whole hours,
    between 1 and 23; from there on whole days, at least 1. *)
Theorem formatTimeAgo_buckets (unixSeconds : Z) (w : World) :
  let diff := clock w / 1000 - unixSeconds in
  (diff < 60 -> formatTimeAgo unixSeconds w = (Ok "just now", w)) /\
  (60 <= diff < 3600 ->
   formatTimeAgo unixSeconds w = (Ok (pretty (diff / 60) +:+ "m ago"), w) /\
   1 <= diff / 60 <= 59) /\
  (3600 <= diff < 86400 ->
   formatTimeAgo unixSeconds w = (Ok (pretty (diff / 3600) +:+ "h ago"), w) /\
   1 <= diff / 3600 <= 23) /\
  (86400 <= diff ->
   formatTimeAgo unixSeconds w = (Ok (pretty (diff / 86400) +:+ "d ago"), w) /\
   1 <= diff / 86400).
Proof.
  intros diff. rewrite formatTimeAgo_time_ago. unfold time_ago. fold diff.
  repeat split.
  - intros H. apply Z.ltb_lt in H. now rewrite H.
  - destruct (diff <? 60) eqn:H1; [apply Z.ltb_lt in H1; lia|].
    destruct (diff <? 3600) eqn:H2; [reflexivity | apply Z.ltb_ge in H2; lia].
  - apply Z.div_le_lower_bound; lia.
  - apply Z.lt_succ_r, Z.div_lt_upper_bound; lia.
  - destruct (diff <? 60) eqn:H1; [apply Z.ltb_lt in H1; lia|].
    destruct (diff <? 3600) eqn:H2; [apply Z.ltb_lt in H2; lia|].
    destruct (diff <? 86400) eqn:H3; [reflexivity | apply Z.ltb_ge in H3; lia].
  - apply Z.div_le_lower_bound; lia.
  - apply Z.lt_succ_r, Z.div_lt_upper_bound; lia.
  - destruct (diff <? 60) eqn:H1; [apply Z.ltb_lt in H1; lia|].
    destruct (diff <? 3600) eqn:H2; [apply Z.ltb_lt in H2; lia|].
    destruct (diff <? 86400) eqn:H3; [apply Z.ltb_lt in H3; lia | reflexivity].
  - apply Z.div_le_lower_bound; lia.
Qed.

(** *** Sync file names *)

Lemma chars_app (s t : string) : chars (s +:+ t) = (chars s ++ chars t)%list.
Proof. induction s as [|c s IH]; simpl; [reflexivity | now rewrite IH]. Qed.

Lemma chars_map_string (f : ascii -> ascii) (s : string) :
  chars (map_string f s) = map f (chars s).
Proof. induction s as [|c s IH]; simpl; [reflexivity | now rewrite IH]. Qed.

Lemma chars_inj (s t : string) : chars s = chars t -> s = t.
Proof.
  intros H. rewrite <- (string_of_list_ascii_of_string s),
    <- (string_of_list_ascii_of_string t). unfold chars in H. now rewrite H.
Qed.

Lemma length_chars (s : string) : length (chars s) = String.length s.
Proof. induction s as [|c s IH]; simpl; [reflexivity | now rewrite IH]. Qed.

Lemma sanitize_safe (c : ascii) : safe_char (sanitize c) = true.
Proof.
  unfold sanitize. fold (safe_char c).
  destruct (safe_char c) eqn:Hc; [exact Hc | reflexivity].
Qed.

Lemma sanitize_keeps_safe (c : ascii) : safe_char c = true -> sanitize c = c.
Proof. intros Hc. unfold sanitize. fold (safe_char c). now rewrite Hc. Qed.

Lemma map_string_id_on (f : ascii -> ascii) (s : string) :
  Forall (fun c => f c = c) (chars s) -> map_string f s = s.
Proof.
  induction s as [|c s IH]; simpl; [reflexivity|].
  intros H. inversion H as [|? ? Hc Hs]; subst. now rewrite Hc, IH.
Qed.

(** X2. The file name built from a username is a stem of characters of the
    class a-z, 0-9, underscore and hyphen, as long as the lower-cased
    username, followed by ".json"; it holds no path separator, so the file
    that is read lies directly in the sync directory.  A username that is
    already in that class and in lower case is its own stem.  Usernames
    whose lower-cased forms differ only in characters outside the class
    share one file and are given the same document. *)
Theorem sync_filename_safe (username : string) :
  (exists stem,
     sync_filename username = stem +:+ ".json" /\
     String.length stem = String.length (toLowerCase username) /\
     Forall (fun c => safe_char c = true) (chars stem)) /\
  ~ In "/"%char (chars (sync_filename username)) /\
  (toLowerCase username = username ->
   Forall (fun c => safe_char c = true) (chars username) ->
   sync_filename username = username +:+ ".json") /\
  (forall other w,
   map sanitize (chars (toLowerCase other))
   = map sanitize (chars (toLowerCase username)) ->
   sync_filename other = sync_filename username /\
   getPlayerSyncData other w = getPlayerSyncData username w).
Proof.
  assert (Hstem : Forall (fun c => safe_char c = true)
                    (chars (map_string sanitize (toLowerCase username)))).
  { rewrite chars_map_string. apply Forall_forall. intros c Hc.
    apply list_elem_of_In, in_map_iff in Hc as (c' & <- & _).
    apply sanitize_safe. }
  split; [|split; [|split]].
  - exists (map_string sanitize (toLowerCase username)).
    split; [reflexivity|]. split; [|exact Hstem].
    rewrite <- !length_chars, chars_map_string. apply length_map.
  - unfold sync_filename. rewrite chars_app. intros Hin.
    apply in_app_or in Hin as [Hin | Hin].
    + rewrite Forall_forall in Hstem.
      apply list_elem_of_In, Hstem in Hin. discriminate Hin.
    + simpl in Hin. repeat destruct Hin as [Hin | Hin]; try discriminate Hin.
      exact Hin.
  - intros Hlower Hsafe. unfold sync_filename. rewrite Hlower.
    rewrite map_string_id_on; [reflexivity|].
    eapply Forall_impl; [exact Hsafe|]. intros c. apply sanitize_keeps_safe.
  - intros other w Hsame.
    assert (Hname : sync_filename other = sync_filename username).
    { unfold sync_filename. f_equal. apply chars_inj.
      now rewrite !chars_map_string. }
    split; [exact Hname|].
    now rewrite !getPlayerSyncData_unfold, Hname.
Qed.

(** *** Listing the synced players *)

Lemma append_String (c : ascii) (s t : string) :
  String c s +:+ t = String c (s +:+ t).
Proof. reflexivity. Qed.

Lemma string_app_assoc (a b c : string) : (a +:+ b) +:+ c = a +:+ (b +:+ c).
Proof.
  induction a as [|x a IH]; [reflexivity|].
  now rewrite !append_String, IH.
Qed.

Lemma string_app_empty_r (a : string) : a +:+ "" = a.
Proof.
  induction a as [|x a IH]; [reflexivity|].
  now rewrite append_String, IH.
Qed.

Lemma rev_app_spec (s acc : string) :
  String.rev_app s acc = String.rev s +:+ acc.
Proof.
  unfold String.rev. revert acc.
  induction s as [|c s IH]; intros acc; simpl; [reflexivity|].
  rewrite (IH (String c acc)), (IH (String c "")), string_app_assoc.
  reflexivity.
Qed.

Lemma rev_String (c : ascii) (s : string) :
  String.rev (String c s) = String.rev s +:+ String c "".
Proof. unfold String.rev at 1. simpl. apply rev_app_spec. Qed.

Lemma string_rev_app (s t : string) :
  String.rev (s +:+ t) = String.rev t +:+ String.rev s.
Proof.
  induction s as [|c s IH].
  - now rewrite string_app_empty_r.
  - now rewrite append_String, !rev_String, IH, string_app_assoc.
Qed.

Lemma string_rev_involutive (s : string) : String.rev (String.rev s) = s.
Proof.
  induction s as [|c s IH]; [reflexivity|].
  now rewrite rev_String, string_rev_app, IH.
Qed.

Lemma endsWith_spec (s t : string) :
  endsWith s t = true <-> exists pre, s = pre +:+ t.
Proof.
  unfold endsWith. rewrite startsWith_spec. split.
  - intros [post H]. exists (String.rev post).
    rewrite <- (string_rev_involutive s), H, string_rev_app.
    now rewrite string_rev_involutive.
  - intros [pre ->]. exists (String.rev pre). apply string_rev_app.
Qed.

Lemma length_string_app (s t : string) :
  String.length (s +:+ t) = (String.length s + String.length t)%nat.
Proof.
  induction s as [|c s IH]; [reflexivity|].
  rewrite append_String. simpl. now rewrite IH.
Qed.

Lemma substring_prefix (s t : string) :
  String.substring 0 (String.length s) (s +:+ t) = s.
Proof.
  induction s as [|c s IH].
  - now destruct t.
  - rewrite append_String. simpl. now rewrite IH.
Qed.

(** Removing the suffix undoes appending it. *)
Lemma remove_json_suffix_app (p : string) :
  remove_json_suffix (p +:+ ".json") = p.
Proof.
  unfold remove_json_suffix.
  assert (H : endsWith (p +:+ ".json") ".json" = true).
  { apply endsWith_spec. now exists p. }
  rewrite H, length_string_app. simpl.
  replace (String.length p + 5 - 5)%nat with (String.length p) by lia.
  apply substring_prefix.
Qed.

(** X3. [listSyncedPlayers] never throws and changes nothing.  When the sync
    directory cannot be read the list is empty.  Otherwise a name is listed
    exactly when the directory has an entry made of that name followed by
    ".json"; the names come in the order of the directory, one per such
    entry, and entries with another suffix are left out. *)
Theorem listSyncedPlayers_lists_json_entries (w : World) :
  (forall e, directory w = Throw e -> listSyncedPlayers w = (Ok [], w)) /\
  (forall entries,
   directory w = Ok entries ->
   exists players,
     listSyncedPlayers w = (Ok players, w) /\
     (forall p, In p players <-> In (p +:+ ".json") entries) /\
     map (fun p => p +:+ ".json") players
     = List.filter (fun f => endsWith f ".json") entries).
Proof.
  unfold listSyncedPlayers, try_catch, bind, readdir, ret. split.
  - intros e ->. reflexivity.
  - intros entries ->. eexists. split; [reflexivity|].
    assert (Hback : map (fun p => p +:+ ".json")
                      (map remove_json_suffix
                         (List.filter (fun f => endsWith f ".json") entries))
                    = List.filter (fun f => endsWith f ".json") entries).
    { induction entries as [|f entries IH]; simpl; [reflexivity|].
      destruct (endsWith f ".json") eqn:Hf; [|exact IH].
      simpl. rewrite IH. f_equal.
      apply endsWith_spec in Hf as [p ->]. now rewrite remove_json_suffix_app. }
    split; [|exact Hback].
    intros p. rewrite in_map_iff. split.
    + intros (f & <- & Hf). apply filter_In in Hf as [Hin Hends].
      apply endsWith_spec in Hends as [q ->].
      now rewrite remove_json_suffix_app.
    + intros Hin. exists (p +:+ ".json"). split.
      * apply remove_json_suffix_app.
      * apply filter_In. split; [exact Hin|].
        apply endsWith_spec. now exists p.
Qed.

(** *** The item table *)

Lemma mapping_get_set_same (k : ItemId) (v : string) (m : WikiItemMapping) :
  mapping_get k (mapping_set k v m) = Some v.
Proof.
  unfold mapping_get. induction m as [|[k' v'] m IH]; simpl.
  - now rewrite N.eqb_refl.
  - destruct (k' =? k)%N eqn:Hk; simpl; [now rewrite N.eqb_refl|].
    destruct (enumerated_before k k'); simpl; [now rewrite N.eqb_refl|].
    now rewrite Hk.
Qed.

Lemma mapping_get_set_other (k k' : ItemId) (v : string) (m : WikiItemMapping) :
  k' <> k -> mapping_get k' (mapping_set k v m) = mapping_get k' m.
Proof.
  intros Hne. assert (Hkk : (k =? k')%N = false) by (apply N.eqb_neq; congruence).
  unfold mapping_get. induction m as [|[k0 v0] m IH]; simpl.
  - now rewrite Hkk.
  - destruct (k0 =? k)%N eqn:Hk; simpl.
    + apply N.eqb_eq in Hk. subst k0. now rewrite Hkk.
    + destruct (enumerated_before k k0); simpl; [now rewrite Hkk|].
      destruct (k0 =? k')%N; [reflexivity | exact IH].
Qed.

Lemma mapping_get_None (k : ItemId) (m : WikiItemMapping) :
  mapping_get k m = None <-> ~ In k (map fst m).
Proof.
  unfold mapping_get. induction m as [|[k' v'] m IH]; simpl.
  - split; [intros _ [] | reflexivity].
  - destruct (k' =? k)%N eqn:Hk; simpl.
    + apply N.eqb_eq in Hk. split; [discriminate | intros H; plain_tauto].
    + apply N.eqb_neq in Hk. rewrite IH. plain_tauto.
Qed.


(** The table after the loop over the first [items], looked up at [k]. *)
Lemma fold_mapping_set_get (items : list MappingItem) (k : ItemId) :
  mapping_get k
    (fold_left (fun m item => mapping_set (mi_id item) (mi_name item) m) items [])
  = mi_name <$> List.find (fun item => (mi_id item =? k)%N) (rev items).
Proof.
  induction items as [|item items IH] using rev_ind; [reflexivity|].
  rewrite fold_left_app, List.rev_app_distr. simpl.
  destruct (mi_id item =? k)%N eqn:Hk.
  - apply N.eqb_eq in Hk. subst k. apply mapping_get_set_same.
  - rewrite mapping_get_set_other; [exact IH|].
    apply N.eqb_neq in Hk. congruence.
Qed.

(** X4. Assigning a key of the item table and reading it back gives the
    assigned name, and leaves the name read at every other key as it was.
    In the table built from the array served by the API, an identifier is a
    key exactly when some element has it, and the name read at it is that of
    the last such element: a later element overwrites an earlier one. *)
Theorem item_table_last_write_wins (items : list MappingItem) (k : ItemId) :
  (forall v m, mapping_get k (mapping_set k v m) = Some v) /\
  (forall k' v m, k' <> k ->
                  mapping_get k' (mapping_set k v m) = mapping_get k' m) /\
  mapping_get k (build_mapping (MappingArray items))
  = mi_name <$> List.find (fun item => (mi_id item =? k)%N) (rev items) /\
  (In k (map fst (build_mapping (MappingArray items))) <->
   exists item, In item items /\ mi_id item = k).
Proof.
  split; [intros v m; apply mapping_get_set_same|].
  split; [intros k' v m; apply mapping_get_set_other|].
  split; [apply fold_mapping_set_get|].
  pose proof (mapping_get_None k (build_mapping (MappingArray items))) as Hnone.
  unfold build_mapping in *. rewrite fold_mapping_set_get in Hnone.
  destruct (List.find (fun item => (mi_id item =? k)%N) (rev items))
    as [item|] eqn:Hfind.
  - apply find_some in Hfind as [Hin Hk]. apply N.eqb_eq in Hk.
    split.
    + intros _. exists item. split; [|exact Hk]. now apply in_rev.
    + intros _. destruct (in_dec N.eq_dec k
                  (map fst (fold_left
                     (fun m item0 => mapping_set (mi_id item0) (mi_name item0) m)
                     items []))) as [Hyes | Hno]; [exact Hyes|].
      apply Hnone in Hno. discriminate Hno.
  - split.
    + intros Hin. destruct Hnone as [Hnone _]. now destruct (Hnone eq_refl).
    + intros (item & Hin & Hk). apply in_rev in Hin.
      pose proof (find_none _ _ Hfind item Hin) as Hno.
      simpl in Hno. apply N.eqb_neq in Hno. congruence.
Qed.



(** *** Resolution, further *)

Lemma includes_refl (s : string) : includes s s = true.
Proof. apply includes_spec. exists "", "". now rewrite string_app_empty_r. Qed.

(** X6. An identifier returned by [findItemId] is a key of the table, and
    the name stored under it contains the query up to case: nothing else is
    ever returned.  When the entries whose name equals the query up to case
    all carry one identifier, that identifier is returned, even if an
    earlier entry contains the query as a proper substring. *)
Theorem findItemId_sound_and_exact_first
    (name : string) (w w' : World) (mapping : WikiItemMapping) :
  getItemMapping w = (Ok mapping, w') ->
  (forall id,
   findItemId name w = (Ok (Some id), w') ->
   exists itemName,
     In (id, itemName) mapping /\ contains_ignoring_case itemName name) /\
  (forall id itemName,
   In (id, itemName) mapping ->
   same_ignoring_case itemName name ->
   (forall id' itemName',
    In (id', itemName') mapping -> same_ignoring_case itemName' name ->
    id' = id) ->
   findItemId name w = (Ok (Some id), w')).
Proof.
  intros Hmap. rewrite findItemId_unfold, Hmap. split.
  - intros id [= Hid]. unfold find_in_mapping in Hid.
    destruct (List.find (fun e => bool_decide (toLowerCase (snd e) = toLowerCase name))
                mapping) as [[id1 n1]|] eqn:Hexact.
    + injection Hid as ->. apply find_some in Hexact as [Hin Hx].
      exists n1. split; [exact Hin|].
      simpl in Hx. apply bool_decide_eq_true in Hx.
      apply substring_test_spec. rewrite Hx. apply includes_refl.
    + destruct (List.find (fun e => includes (toLowerCase (snd e)) (toLowerCase name))
                  mapping) as [[id2 n2]|] eqn:Hsub; [|discriminate].
      injection Hid as ->. apply find_some in Hsub as [Hin Hx].
      exists n2. split; [exact Hin|]. now apply substring_test_spec.
  - intros id itemName Hin Hsame Huniq.
    destruct (find_in_mapping_spec mapping name) as [Hexact _].
    destruct Hexact as (id0 & -> & before & n0 & after & Hm & Hn0 & _).
    { apply Exists_exists. exists (id, itemName). split; [|exact Hsame].
      now apply list_elem_of_In. }
    f_equal. f_equal. f_equal. apply (Huniq id0 n0); [|exact Hn0].
    rewrite Hm. apply in_or_app. right. now left.
Qed.

(** *** Price lines *)

Lemma ago_suffix_staleness (time : option Z) (w : World) :
  ago_suffix time w = (Ok (staleness (clock w) time), w).
Proof.
  unfold ago_suffix, staleness. destruct time as [t|]; [|reflexivity].
  destruct (t =? 0); [reflexivity|].
  unfold bind. now rewrite formatTimeAgo_time_ago.
Qed.


(** *** Requests of the price lookup *)

Lemma pricesFetch_requests {T} (path : PricesPath T) (w : World) :
  requests (snd (pricesFetch path w))
  = (requests w ++ [Get (PricesUrl path)])%list /\
  playerDataCache (snd (pricesFetch path w)) = playerDataCache w.
Proof.
  rewrite pricesFetch_unfold.
  destruct (outcome (next_reply w (PricesUrl path))) as [e|st body];
    [split; reflexivity|].
  destruct ((200 <=? st) && (st <=? 299)); split; reflexivity.
Qed.

Lemma getItemMapping_keeps_players (w : World) :
  playerDataCache (snd (getItemMapping w)) = playerDataCache w.
Proof.
  destruct (mapping_fresh w) eqn:Hf.
  - destruct (getItemMapping_fresh w Hf) as (m & _ & ->). reflexivity.
  - rewrite (getItemMapping_stale w Hf).
    pose proof (pricesFetch_requests mapping_path w) as [_ Hp].
    destruct (pricesFetch mapping_path w) as [[data|e] w1]; exact Hp.
Qed.

Lemma price_of_bounds (item : string) (itemId : ItemId) (w : World) :
  (length (requests (snd (price_of item itemId w))) <= length (requests w) + 2)%nat /\
  playerDataCache (snd (price_of item itemId w)) = playerDataCache w.
Proof.
  rewrite price_of_unfold.
  pose proof (pricesFetch_requests (latest_path itemId) w) as [Hr Hp].
  destruct (pricesFetch (latest_path itemId) w) as [[data|e] w1]; simpl in Hr, Hp.
  2:{ simpl. rewrite Hr, length_app. simpl. split; [lia | exact Hp]. }
  destruct (pr_data data ≫= (fun d => d !! itemId)) as [price|].
  2:{ simpl. rewrite Hr, length_app. simpl. split; [lia | exact Hp]. }
  pose proof (getItemMapping_at_most_one w1) as Hone.
  pose proof (getItemMapping_keeps_players w1) as Hkeep.
  destruct (getItemMapping w1) as [[mapping|e] w2]; simpl in Hone, Hkeep.
  2:{ simpl. rewrite Hr, length_app in Hone. simpl in Hone.
      split; [lia | congruence]. }
  cbv zeta.
  assert (Hw2 : (length (requests w2) <= length (requests w) + 2)%nat /\
                playerDataCache w2 = playerDataCache w).
  { rewrite Hr, length_app in Hone. simpl in Hone. split; [lia | congruence]. }
  destruct (high price) as [h|], (low price) as [l|]; unfold bind, ret;
    rewrite ?ago_suffix_staleness; exact Hw2.
Qed.

Lemma price_tool_bounds (item : string) (w : World) :
  (length (requests (snd (price_tool item w))) <= length (requests w) + 3)%nat /\
  playerDataCache (snd (price_tool item w)) = playerDataCache w.
Proof.
  rewrite price_tool_unfold, findItemId_unfold.
  pose proof (getItemMapping_at_most_one w) as Hone.
  pose proof (getItemMapping_keeps_players w) as Hkeep.
  destruct (getItemMapping w) as [[mapping|e] w1]; simpl in Hone, Hkeep.
  2:{ simpl. split; [lia | exact Hkeep]. }
  destruct (find_in_mapping mapping item) as [itemId|].
  2:{ simpl. split; [lia | exact Hkeep]. }
  destruct (price_of_bounds item itemId w1) as [Hr Hp].
  split; [lia | congruence].
Qed.

(** X8. The price lookup issues at most three requests and never writes the
    player cache.  While the item table is within its TTL window, a name
    that resolves to nothing is answered "item not found" with no request
    and no change at all; and a name that resolves is answered after exactly
    one request, for the latest price of the resolved identifier, provided
    the table is still within its window when that request completes. *)
Theorem price_tool_requests (item : string) (w : World) :
  (length (requests (snd (price_tool item w))) <= length (requests w) + 3)%nat /\
  playerDataCache (snd (price_tool item w)) = playerDataCache w /\
  (forall m,
   mapping_fresh w = true -> itemMappingCache w = Some m ->
   find_in_mapping m item = None ->
   price_tool item w = (Ok (ItemNotFound item), w)) /\
  (forall m itemId,
   mapping_fresh w = true -> itemMappingCache w = Some m ->
   find_in_mapping m item = Some itemId ->
   mapping_fresh (requested (PricesUrl (latest_path itemId)) w) = true ->
   requests (snd (price_tool item w))
   = (requests w ++ [Get (PricesUrl (latest_path itemId))])%list).
Proof.
  destruct (price_tool_bounds item w) as [Hb1 Hb2].
  split; [exact Hb1|]. split; [exact Hb2|]. split.
  - intros m Hf Hc Hnone.
    destruct (getItemMapping_fresh w Hf) as (m' & Hc' & Hrun).
    assert (m' = m) by congruence. subst m'.
    now rewrite price_tool_unfold, findItemId_unfold, Hrun, Hnone.
  - intros m itemId Hf Hc Hsome Hf2.
    destruct (getItemMapping_fresh w Hf) as (m' & Hc' & Hrun).
    assert (m' = m) by congruence. subst m'.
    rewrite price_tool_unfold, findItemId_unfold, Hrun, Hsome, price_of_unfold.
    rewrite pricesFetch_unfold.
    destruct (outcome (next_reply w (PricesUrl (latest_path itemId))))
      as [e|st [data|e]]; [reflexivity| |];
      destruct ((200 <=? st) && (st <=? 299)); try reflexivity.
    destruct (pr_data data ≫= (fun d => d !! itemId)) as [price|];
      [|reflexivity].
    destruct (getItemMapping_fresh _ Hf2) as (m2 & _ & ->).
    cbv zeta.
    destruct (high price) as [h|], (low price) as [l|]; unfold bind, ret;
      rewrite ?ago_suffix_staleness; reflexivity.
Qed.

(** *** The player cache, further *)





Lemma no_data_has_keys (j : Json) : no_data j = false <-> has_keys j.
Proof.
  unfold no_data. destruct j as [|b|n|s|xs|fields]; simpl.
  - split; [discriminate | plain_tauto].
  - destruct b; simpl; split; (discriminate || plain_tauto).
  - destruct (n =? 0); simpl; split; (discriminate || plain_tauto).
  - destruct s as [|c s]; [split; [discriminate | plain_tauto]|].
    split; [plain_tauto | reflexivity].
  - destruct xs; simpl; [split; [discriminate | plain_tauto] | plain_tauto].
  - destruct fields; simpl; [split; [discriminate | plain_tauto] | plain_tauto].
Qed.

(** X11. When a request of [fetchWikiSyncPlayer] is answered with a success
    status and a body that parses, the body is returned as data and stored
    exactly when it is a non-empty object, a non-empty array or a non-empty
    string; every other body ([null], a number, a boolean, an empty object,
    array or string) gives the "no player data" message and stores
    nothing. *)
Theorem player_fetch_stores_bodies_with_keys (username : string)
    (forceRefresh : bool) (w : World) (body : Json) :
  served_from_cache w username forceRefresh = None ->
  payload (next_reply w (WikiSyncUrl username)) = Some body ->
  let run := fetchWikiSyncPlayer username forceRefresh w in
  (has_keys body ->
   fst run = Ok {| data := Some body; message := None |} /\
   playerDataCache (snd run) !! username
   = Some {| ce_data := body; fetchedAt := clock w |}) /\
  (~ has_keys body ->
   fst run = Ok {| data := None; message := Some NO_PLAYER_DATA |} /\
   playerDataCache (snd run) = playerDataCache w).
Proof.
  intros Hs Hp run. subst run. split.
  - intros Hkeys. apply no_data_has_keys in Hkeys.
    rewrite (fetchWikiSyncPlayer_stores _ _ _ _ Hs Hp Hkeys). simpl.
    split; [reflexivity | apply lookup_insert_eq].
  - intros Hnot.
    assert (Hnd : no_data body = true).
    { destruct (no_data body) eqn:Hnd; [reflexivity|].
      now apply no_data_has_keys in Hnd. }
    rewrite fetchWikiSyncPlayer_unfold, Hs. cbv zeta.
    unfold payload in Hp.
    destruct (outcome (next_reply w (WikiSyncUrl username))) as [e|st [d|e]];
      try discriminate.
    destruct ((200 <=? st) && (st <=? 299)); [|discriminate].
    injection Hp as ->. rewrite Hnd. split; reflexivity.
Qed.

(** *** An empty item table *)

(** X12. A mapping response that is not an array, or is an empty array, is
    cached like any other: the table is empty, and until it expires an hour
    later every name resolves to nothing and every price lookup answers
    "item not found", without a request. *)
Theorem empty_table_is_cached (w : World) (body : MappingBody) :
  mapping_fresh w = false ->
  payload (next_reply w (PricesUrl mapping_path)) = Some body ->
  body = MappingOther \/ body = MappingArray [] ->
  let w1 := snd (getItemMapping w) in
  fst (getItemMapping w) = Ok [] /\
  itemMappingCache w1 = Some [] /\
  forall (dt : N) (name : string),
    clock (elapse dt w1) < clock w1 + 3600000 ->
    findItemId name (elapse dt w1) = (Ok None, elapse dt w1) /\
    price_tool name (elapse dt w1) = (Ok (ItemNotFound name), elapse dt w1).
Proof.
  intros Hs Hp Hbody w1. subst w1.
  destruct (getItemMapping_stale_success w body Hs Hp) as (Hres & Hc & He & _).
  assert (Hempty : build_mapping body = []) by (destruct Hbody; now subst).
  rewrite Hempty in Hres, Hc.
  split; [exact Hres|]. split; [exact Hc|].
  intros dt name Hdt.
  assert (Hfresh : mapping_fresh (elapse dt (snd (getItemMapping w))) = true).
  { unfold mapping_fresh. simpl. rewrite Hc, He. apply Z.ltb_lt. exact Hdt. }
  destruct (getItemMapping_fresh _ Hfresh) as (m & Hm & Hrun).
  simpl in Hm. rewrite Hc in Hm. injection Hm as <-.
  assert (Hfind : findItemId name (elapse dt (snd (getItemMapping w)))
                  = (Ok None, elapse dt (snd (getItemMapping w)))).
  { now rewrite findItemId_unfold, Hrun. }
  split; [exact Hfind|].
  now rewrite price_tool_unfold, Hfind.
Qed.

(** *** What the player cache holds *)



(** *** Stripping HTML *)

Lemma after_gt_None (s : string) :
  after_gt s = None <-> ~ In ">"%char (chars s).
Proof.
  induction s as [|c s IH]; simpl.
  - split; [intros _ [] | reflexivity].
  - destruct (decide (c = ">"%char)) as [->|Hc].
    + split; [discriminate | intros H; destruct H; now left].
    + destruct (after_gt s) as [[n rest]|].
      * split; [discriminate|]. intros H.
        destruct IH as [_ IH]. discriminate IH. intros Hin. apply H. now right.
      * split; [|reflexivity]. intros _ [Heq | Hin]; [congruence|].
        destruct IH as [IH _]. now apply IH.
Qed.

Lemma after_gt_Some (s rest : string) (n : nat) :
  after_gt s = Some (n, rest) ->
  exists x, s = x +:+ ">" +:+ rest /\ String.length x = n /\
            ~ In ">"%char (chars x).
Proof.
  revert n. induction s as [|c s IH]; simpl; intros n; [discriminate|].
  destruct (decide (c = ">"%char)) as [->|Hc].
  - intros [= <- <-]. exists "". repeat split. intros [].
  - destruct (after_gt s) as [[m r]|]; [|discriminate].
    intros [= <- <-]. destruct (IH m eq_refl) as (x & -> & Hlen & Hx).
    exists (String c x). split; [reflexivity|]. split; [simpl; now rewrite Hlen|].
    intros [Heq | Hin]; [congruence | now apply Hx].
Qed.

Lemma after_gt_app (x post : string) :
  ~ In ">"%char (chars x) ->
  after_gt (x +:+ ">" +:+ post) = Some (String.length x, post).
Proof.
  induction x as [|c x IH]; intros Hx.
  - reflexivity.
  - rewrite append_String. simpl.
    destruct (decide (c = ">"%char)) as [->|Hc]; [destruct Hx; now left|].
    rewrite IH; [reflexivity|]. intros Hin. apply Hx. now right.
Qed.

Lemma after_gt_shorter (s rest : string) (n : nat) :
  after_gt s = Some (n, rest) -> (String.length rest < String.length s)%nat.
Proof.
  intros H. apply after_gt_Some in H as (x & -> & _ & _).
  rewrite !length_string_app. simpl. lia.
Qed.

Lemma strip_tags_go_chars (fuel : nat) (s : string) (c : ascii) :
  In c (chars (strip_tags_go fuel s)) -> In c (chars s).
Proof.
  revert s. induction fuel as [|fuel IH]; intros s; simpl; [plain_tauto|].
  destruct s as [|a s]; simpl; [plain_tauto|].
  destruct (decide (a = "<"%char)) as [->|Ha].
  - destruct (after_gt s) as [[[|n] rest]|] eqn:Hgt; simpl.
    + intros [H | H]; [now left | right; now apply IH].
    + intros H. apply IH in H. right.
      apply after_gt_Some in Hgt as (x & -> & _ & _).
      rewrite !chars_app. apply in_or_app. right. apply in_or_app. now right.
    + intros [H | H]; [now left | right; now apply IH].
  - intros [H | H]; [now left | right; now apply IH].
Qed.

Lemma strip_tags_go_length (fuel : nat) (s : string) :
  (String.length (strip_tags_go fuel s) <= String.length s)%nat.
Proof.
  revert s. induction fuel as [|fuel IH]; intros s; simpl; [lia|].
  destruct s as [|a s]; simpl; [lia|].
  destruct (decide (a = "<"%char)) as [->|Ha].
  - destruct (after_gt s) as [[[|n] rest]|] eqn:Hgt; simpl.
    + specialize (IH s). lia.
    + apply after_gt_shorter in Hgt. specialize (IH rest). lia.
    + specialize (IH s). lia.
  - simpl. specialize (IH s). lia.
Qed.

Lemma strip_tags_go_plain (fuel : nat) (s : string) :
  ~ In "<"%char (chars s) -> strip_tags_go fuel s = s.
Proof.
  revert s. induction fuel as [|fuel IH]; intros s; simpl; [reflexivity|].
  destruct s as [|a s]; simpl; [reflexivity|]. intros H.
  destruct (decide (a = "<"%char)) as [->|Ha]; [destruct H; now left|].
  rewrite IH; [reflexivity|]. intros Hin. apply H. now right.
Qed.

Lemma strip_tags_go_tag_free (fuel : nat) (s : string) :
  (String.length s <= fuel)%nat -> tag_free (strip_tags_go fuel s) = true.
Proof.
  revert s. induction fuel as [|fuel IH]; intros s Hlen.
  - destruct s; [reflexivity | simpl in Hlen; lia].
  - destruct s as [|a s]; [reflexivity|]. simpl in Hlen. simpl.
    destruct (decide (a = "<"%char)) as [->|Ha].
    + destruct (after_gt s) as [[[|n] rest]|] eqn:Hgt.
      * simpl. rewrite IH by lia. rewrite andb_true_r.
        apply after_gt_Some in Hgt as (x & Hs & Hx & _).
        destruct x; [|discriminate Hx]. simpl in Hs. subst s.
        destruct fuel as [|fuel']; [simpl in Hlen; lia|]. reflexivity.
      * apply IH. apply after_gt_shorter in Hgt. lia.
      * simpl. rewrite IH by lia. rewrite andb_true_r.
        assert (Hnone : after_gt (strip_tags_go fuel s) = None).
        { apply after_gt_None. intros Hin.
          apply strip_tags_go_chars in Hin. now apply after_gt_None in Hgt. }
        now rewrite Hnone.
    + simpl. destruct (decide (a = "<"%char)); [congruence|].
      apply IH. lia.
Qed.

Lemma tag_free_suffix (pre s : string) :
  tag_free (pre +:+ s) = true -> tag_free s = true.
Proof.
  induction pre as [|c pre IH]; [plain_tauto|].
  rewrite append_String. simpl. intros H.
  apply andb_true_iff in H as [_ H]. now apply IH.
Qed.

Lemma tag_free_no_tag (s : string) : tag_free s = true -> ~ has_tag s.
Proof.
  intros Hfree (pre & x & post & -> & Hx & Hgt).
  apply tag_free_suffix in Hfree.
  change ("<" +:+ x +:+ ">" +:+ post) with (String "<" (x +:+ ">" +:+ post)) in Hfree.
  simpl in Hfree. rewrite (after_gt_app x post Hgt) in Hfree.
  destruct x as [|c x]; [congruence|]. discriminate Hfree.
Qed.

(** The literal replacement, one occurrence at a time. *)
Lemma replace_all_go_skip (pat rep x s : string) :
  replace_all_go pat rep (String.length x) (x +:+ s) = replace_all_go pat rep 0 s.
Proof.
  induction x as [|c x IH].
  - now destruct s.
  - rewrite append_String. simpl. exact IH.
Qed.

Lemma replace_all_match (p : ascii) (pat' rep post : string) :
  replace_all (String p pat') rep (String p pat' +:+ post)
  = rep +:+ replace_all (String p pat') rep post.
Proof.
  unfold replace_all. rewrite append_String. simpl.
  assert (Hs : startsWith (String p (pat' +:+ post)) (String p pat') = true).
  { apply startsWith_spec. now exists post. }
  simpl in Hs. rewrite Hs. rewrite Nat.sub_0_r.
  now rewrite replace_all_go_skip.
Qed.

Lemma replace_all_no_match (pat rep : string) (c : ascii) (s : string) :
  startsWith (String c s) pat = false ->
  replace_all pat rep (String c s) = String c (replace_all pat rep s).
Proof. unfold replace_all. simpl. now intros ->. Qed.

Lemma startsWith_length (s pat : string) :
  startsWith s pat = true -> (String.length pat <= String.length s)%nat.
Proof.
  intros H. apply startsWith_spec in H as [post ->].
  rewrite length_string_app. lia.
Qed.

(** Induction on a text by occurrences of a pattern. *)
Lemma replace_all_ind (p : ascii) (pat' rep : string) (P : string -> string -> Prop) :
  P "" "" ->
  (forall post,
   P post (replace_all (String p pat') rep post) ->
   P (String p pat' +:+ post) (rep +:+ replace_all (String p pat') rep post)) ->
  (forall c s,
   startsWith (String c s) (String p pat') = false ->
   P s (replace_all (String p pat') rep s) ->
   P (String c s) (String c (replace_all (String p pat') rep s))) ->
  forall s, P s (replace_all (String p pat') rep s).
Proof.
  intros Hnil Hmatch Hstep s.
  remember (String.length s) as n eqn:Hn.
  revert s Hn. induction n as [n IH] using lt_wf_ind. intros s Hn.
  destruct s as [|c s]; [exact Hnil|].
  destruct (startsWith (String c s) (String p pat')) eqn:Hsw.
  - apply startsWith_spec in Hsw as [post Hpost].
    rewrite Hpost, replace_all_match. apply Hmatch.
    apply (IH (String.length post)); [|reflexivity].
    subst n. rewrite Hpost, length_string_app. simpl. lia.
  - rewrite (replace_all_no_match _ _ _ _ Hsw). apply Hstep; [exact Hsw|].
    apply (IH (String.length s)); [|reflexivity]. subst n. simpl. lia.
Qed.

Lemma replace_all_length (p : ascii) (pat' rep s : string) :
  (String.length rep <= String.length (String p pat'))%nat ->
  (String.length (replace_all (String p pat') rep s) <= String.length s)%nat.
Proof.
  intros Hrep. apply (replace_all_ind p pat' rep
    (fun s r => (String.length r <= String.length s)%nat)).
  - simpl. lia.
  - intros post IH. rewrite !length_string_app. lia.
  - intros c t _ IH. simpl. lia.
Qed.

Lemma replace_all_plain (p : ascii) (pat' rep s : string) :
  ~ In p (chars s) -> replace_all (String p pat') rep s = s.
Proof.
  apply (replace_all_ind p pat' rep (fun s r => ~ In p (chars s) -> r = s)).
  - reflexivity.
  - intros post _ H. destruct H. rewrite append_String. now left.
  - intros c t _ IH H. rewrite IH; [reflexivity|].
    intros Hin. apply H. now right.
Qed.

Lemma replace_all_chars (p : ascii) (pat' rep s : string) (c : ascii) :
  In c (chars (replace_all (String p pat') rep s)) ->
  In c (chars s) \/ In c (chars rep).
Proof.
  apply (replace_all_ind p pat' rep
    (fun s r => In c (chars r) -> In c (chars s) \/ In c (chars rep))).
  - plain_tauto.
  - intros post IH. rewrite !chars_app. intros H.
    apply in_app_or in H as [H | H]; [now right|].
    destruct (IH H) as [H' | H']; [left; apply in_or_app; now right | now right].
  - intros a t _ IH [H | H]; [left; now left|].
    destruct (IH H) as [H' | H']; [left; now right | now right].
Qed.

Lemma tag_free_plain_prefix (x s : string) :
  ~ In "<"%char (chars x) -> tag_free (x +:+ s) = tag_free s.
Proof.
  induction x as [|c x IH]; intros Hx; [reflexivity|].
  rewrite append_String. simpl.
  destruct (decide (c = "<"%char)) as [->|Hc]; [destruct Hx; now left|].
  simpl. apply IH. intros Hin. apply Hx. now right.
Qed.

(** A literal replacement whose pattern and replacement hold no angle
    bracket, and whose replacement is not empty, creates no tag. *)
Lemma replace_all_tag_free (p : ascii) (pat' rep s : string) :
  ~ In "<"%char (chars (String p pat')) -> ~ In ">"%char (chars (String p pat')) ->
  ~ In "<"%char (chars rep) -> ~ In ">"%char (chars rep) ->
  tag_free s = true -> tag_free (replace_all (String p pat') rep s) = true.
Proof.
  intros Hpl Hpg Hrl Hrg.
  apply (replace_all_ind p pat' rep
    (fun s r => tag_free s = true -> tag_free r = true)).
  - reflexivity.
  - intros post IH. rewrite !tag_free_plain_prefix by assumption. exact IH.
  - intros c t Hsw IH Hfree. simpl in Hfree.
    apply andb_true_iff in Hfree as [Hcheck Hfree]. simpl.
    rewrite (IH Hfree), andb_true_r.
    destruct (decide (c = "<"%char)) as [->|Hc]; [|reflexivity].
    destruct (after_gt t) as [[[|n] rest]|] eqn:Hgt; [| discriminate Hcheck |].
    + apply after_gt_Some in Hgt as (x & -> & Hx & _).
      destruct x; [|discriminate Hx].
      change ("" +:+ ">" +:+ rest) with (String ">" rest).
      rewrite replace_all_no_match; [reflexivity|].
      simpl. destruct (decide (">"%char = p)) as [<-|]; [|reflexivity].
      destruct Hpg. now left.
    + assert (Hnone : after_gt (replace_all (String p pat') rep t) = None).
      { apply after_gt_None. intros Hin.
        apply replace_all_chars in Hin as [Hin | Hin]; [|now apply Hrg].
        now apply after_gt_None in Hgt. }
      now rewrite Hnone.
Qed.

Lemma strip_tags_tag_free (text : string) : tag_free (strip_tags text) = true.
Proof. apply strip_tags_go_tag_free. lia. Qed.

(** X14. [stripHtml] leaves no tag behind: its result has no [<] followed
    by one or more characters other than [>] and then by a [>].  The entity
    decoding that follows the removal of tags cannot bring one back. *)
Theorem stripHtml_leaves_no_tag (text : string) :
  ~ has_tag (strip_tags text) /\ ~ has_tag (stripHtml text).
Proof.
  split; apply tag_free_no_tag; [apply strip_tags_tag_free|].
  unfold stripHtml.
  apply replace_all_tag_free;
    try (vm_compute; intros H; repeat destruct H as [H | H]; try discriminate H;
         exact H).
  apply replace_all_tag_free;
    try (vm_compute; intros H; repeat destruct H as [H | H]; try discriminate H;
         exact H).
  apply strip_tags_tag_free.
Qed.

(** X15. [stripHtml] never makes a text longer, adds no character other
    than the double quote and the ampersand it decodes, and returns a text
    that holds neither [<] nor [&] as it is. *)
Theorem stripHtml_shrinks (text : string) :
  (String.length (stripHtml text) <= String.length text)%nat /\
  (forall c, In c (chars (stripHtml text)) ->
             In c (chars text) \/ c = ascii_of_nat 34 \/ c = "&"%char) /\
  (~ In "<"%char (chars text) -> ~ In "&"%char (chars text) ->
   stripHtml text = text).
Proof.
  unfold stripHtml. split; [|split].
  - etransitivity; [apply replace_all_length; simpl; lia|].
    etransitivity; [apply replace_all_length; simpl; lia|].
    apply strip_tags_go_length.
  - intros c Hin.
    apply replace_all_chars in Hin as [Hin | Hin].
    + apply replace_all_chars in Hin as [Hin | Hin].
      * left. now apply strip_tags_go_chars in Hin.
      * right. left. simpl in Hin. destruct Hin as [<- | []]. reflexivity.
    + right. right. simpl in Hin. destruct Hin as [<- | []]. reflexivity.
  - intros Hlt Hamp. unfold strip_tags.
    rewrite strip_tags_go_plain by exact Hlt.
    rewrite (replace_all_plain "&" "quot;" QUOTE text Hamp).
    exact (replace_all_plain "&" "amp;" "&" text Hamp).
Qed.

(** *** The tools on the whole document *)

Section ToolProperties.

Variable trim : string -> string.
Variable JSON_parse_document : string -> Res (option SyncDocument).

Lemma read_sync_file_returns {D} (parse : string -> Res (option D))
    (username : string) (w : World) :
  exists doc, read_sync_file parse username w = (Ok doc, w).
Proof.
  unfold read_sync_file, try_catch, bind, readFile, settle, ret.
  destruct (files w (join SYNC_DIR (sync_filename username))) as [raw|e]; eauto.
  destruct (parse raw); eauto.
Qed.

Lemma state_eqb_eq (a b : QuestState) : state_eqb a b = true <-> a = b.
Proof. destruct a, b; simpl; split; congruence. Qed.

Lemma filter_state_as_filter (state : option QuestState) (qs : list QuestEntry) :
  filter_state state qs
  = List.filter (fun q => match state with
                          | Some s => state_eqb (quest_state q) s
                          | None => true
                          end) qs.
Proof. destruct state; simpl; [reflexivity | now rewrite filter_true]. Qed.

Lemma filter_quest_search_as_filter (search : option string)
    (qs : list QuestEntry) :
  filter_quest_search search qs
  = List.filter (fun q => match search with
                          | Some t => bool_decide (t = "")
                                      || includes (toLowerCase (displayName q))
                                                  (toLowerCase t)
                          | None => true
                          end) qs.
Proof.
  unfold filter_quest_search. destruct search as [t|]; [|now rewrite filter_true].
  destruct (bool_decide (t = "")); simpl; [now rewrite filter_true | reflexivity].
Qed.

(** X16. The quests listed are those of the document, in its order, whose
    state is the one asked for (when a state is given) and whose display name
    contains the search text up to case (when a non-empty text is given);
    the two filters give the same list in either order, and "no matching
    quests" is reported exactly when that list is empty. *)
Theorem quests_filters_conjunctive (username : string)
    (state : option QuestState) (search : option string)
    (w : World) (doc : SyncDocument) (qs : list QuestEntry) :
  getSyncDocument JSON_parse_document username w = (Ok (Some doc), w) ->
  quests doc = Some qs ->
  let result := List.filter (quest_matches state search) qs in
  filter_quest_search search (filter_state state qs) = result /\
  filter_state state (filter_quest_search search qs) = result /\
  (forall q,
   In q result <->
   In q qs /\
   (forall s, state = Some s -> quest_state q = s) /\
   (forall t, search = Some t -> t <> "" ->
              contains_ignoring_case (displayName q) t)) /\
  get_my_quests JSON_parse_document username state search w
  = (Ok match result with
        | [] => QuestsNoMatch
        | _ => QuestsListing username
                 (map (fun q => (quest_icon q, displayName q)) result)
        end, w).
Proof.
  intros Hdoc Hqs result. subst result.
  assert (H1 : filter_quest_search search (filter_state state qs)
               = List.filter (quest_matches state search) qs).
  { rewrite filter_quest_search_as_filter, filter_state_as_filter,
      filter_filter_andb. reflexivity. }
  split; [exact H1|]. split; [|split].
  - rewrite filter_quest_search_as_filter, filter_state_as_filter,
      filter_filter_andb.
    apply filter_ext_bool. intros q. unfold quest_matches. apply andb_comm.
  - intros q. rewrite filter_In. unfold quest_matches.
    rewrite andb_true_iff. split.
    + intros (Hin & Hst & Hse). split; [exact Hin|]. split.
      * intros s ->. now apply state_eqb_eq.
      * intros t -> Ht. rewrite bool_decide_false in Hse by exact Ht.
        now apply substring_test_spec.
    + intros (Hin & Hst & Hse). split; [exact Hin|]. split.
      * destruct state as [s|]; [|reflexivity]. apply state_eqb_eq. now apply Hst.
      * destruct search as [t|]; [|reflexivity].
        destruct (bool_decide (t = "")) eqn:Ht; [reflexivity|].
        apply bool_decide_eq_false in Ht. simpl.
        apply substring_test_spec. now apply Hse.
  - unfold get_my_quests, bind. rewrite Hdoc, Hqs, H1.
    now destruct (List.filter (quest_matches state search) qs).
Qed.

(** X17. With a non-empty region, the diaries listed are the entries whose
    key equals the region up to case -- the key is upper-cased as well as the
    argument --, in the order of the document; "region not found", with all
    keys of the document, is reported exactly when no key does.  Without a
    region, or with an empty one, every entry is listed. *)
Theorem diaries_region_up_to_case (username : string) (w : World)
    (doc : SyncDocument) (all : JsObject DiaryRegion) :
  getSyncDocument JSON_parse_document username w = (Ok (Some doc), w) ->
  achievementDiaries doc = Some all ->
  get_my_diaries JSON_parse_document username None w
  = (Ok (DiariesListing username all), w) /\
  get_my_diaries JSON_parse_document username (Some "") w
  = (Ok (DiariesListing username all), w) /\
  forall region,
    region <> "" ->
    ((exists e, In e all /\ same_region (fst e) region) ->
     exists diaries,
       get_my_diaries JSON_parse_document username (Some region) w
       = (Ok (DiariesListing username diaries), w) /\
       diaries <> [] /\
       diaries = List.filter
                   (fun e => bool_decide (toUpperCase (fst e) = toUpperCase region))
                   all /\
       forall e, In e diaries <-> In e all /\ same_region (fst e) region) /\
    ((forall e, In e all -> ~ same_region (fst e) region) <->
     get_my_diaries JSON_parse_document username (Some region) w
     = (Ok (RegionNotFound region (obj_keys all)), w)).
Proof.
  intros Hdoc Hall.
  split; [unfold get_my_diaries, bind; now rewrite Hdoc, Hall|].
  split; [unfold get_my_diaries, bind; now rewrite Hdoc, Hall|].
  intros region Hne.
  assert (Hrun : get_my_diaries JSON_parse_document username (Some region) w
    = (Ok match List.filter
                   (fun e => bool_decide (toUpperCase (fst e) = toUpperCase region))
                   all with
          | [] => RegionNotFound region (obj_keys all)
          | diaries => DiariesListing username diaries
          end, w)).
  { unfold get_my_diaries, bind. rewrite Hdoc, Hall.
    rewrite bool_decide_false by exact Hne.
    now destruct (List.filter _ all). }
  assert (Hin : forall e,
    In e (List.filter
            (fun e => bool_decide (toUpperCase (fst e) = toUpperCase region)) all)
    <-> In e all /\ same_region (fst e) region).
  { intros e. rewrite filter_In, bool_decide_eq_true. reflexivity. }
  rewrite Hrun.
  destruct (List.filter
              (fun e => bool_decide (toUpperCase (fst e) = toUpperCase region))
              all) as [|d ds] eqn:Hf.
  - split.
    + intros (e & He & Hs). destruct (proj2 (Hin e) (conj He Hs)).
    + split; [reflexivity|]. intros _ e He Hs.
      destruct (proj2 (Hin e) (conj He Hs)).
  - split.
    + intros _. exists (d :: ds). repeat split; try discriminate; apply Hin; assumption.
    + split; [|discriminate]. intros Hnone.
      destruct (proj1 (Hin d) (or_introl eq_refl)) as [Hd Hs].
      destruct (Hnone d Hd Hs).
Qed.

(** X18. The report of combat achievements counts all completed tasks,
    whatever the search.  The tasks considered are the completed ones that
    contain the non-empty search text up to case, or all of them without a
    search; they are listed when there are between 1 and 100 of them, and
    replaced by their number when there are more than 100. *)
Theorem combat_tasks_listed_up_to_100 (username : string)
    (search : option string) (w : World) (doc : SyncDocument)
    (ca : CombatAchievements) :
  getSyncDocument JSON_parse_document username w = (Ok (Some doc), w) ->
  combatAchievements doc = Some ca ->
  let tasks :=
    match search with
    | Some s => if bool_decide (s = "") then completedTasks ca
                else matching_tasks s (completedTasks ca)
    | None => completedTasks ca
    end in
  exists report,
    get_my_combat_achievements JSON_parse_document username search w
    = (Ok (CombatListing username report), w) /\
    report_completed report = length (completedTasks ca) /\
    (tasks = [] -> report_tasks report = NoTaskLines) /\
    ((1 <= length tasks <= 100)%nat -> report_tasks report = TaskLines tasks) /\
    ((100 < length tasks)%nat ->
     report_tasks report = TooManyTasks (length tasks)).
Proof.
  intros Hdoc Hca tasks.
  unfold get_my_combat_achievements, bind. rewrite Hdoc, Hca.
  eexists. split; [reflexivity|]. simpl. split; [reflexivity|].
  assert (Htasks :
    match match search with
          | Some s => if bool_decide (s = "") then None else Some s
          | None => None
          end with
    | Some s => List.filter (fun t => includes (toLowerCase t) (toLowerCase s))
                  (completedTasks ca)
    | None => completedTasks ca
    end = tasks).
  { subst tasks. destruct search as [s|]; [|reflexivity].
    now destruct (bool_decide (s = "")). }
  rewrite Htasks. clear Htasks.
  split; [|split].
  - intros ->. reflexivity.
  - intros [H1 H2].
    assert (Ha : (0 <? length tasks)%nat = true) by (apply Nat.ltb_lt; lia).
    assert (Hb : (length tasks <=? 100)%nat = true) by (apply Nat.leb_le; lia).
    now rewrite Ha, Hb.
  - intros H.
    assert (Hb : (length tasks <=? 100)%nat = false) by (apply Nat.leb_gt; lia).
    assert (Hc : (100 <? length tasks)%nat = true) by (apply Nat.ltb_lt; lia).
    now rewrite Hb, andb_false_r, Hc.
Qed.

(** X19. The identifier -1 marks an empty slot and is never shown as an
    item.  The inventory tool leaves such entries out, keeps the others in
    order, shows a quantity only when it exceeds 1, and reports an empty
    inventory exactly when every entry is an empty slot.  The equipment tool
    shows one line per slot, in order, which reads "empty" exactly for the
    slots that hold -1. *)
Theorem empty_slot_sentinel (username : string) (w : World) (doc : SyncDocument) :
  getSyncDocument JSON_parse_document username w = (Ok (Some doc), w) ->
  (forall inv,
   inventory doc = Some inv ->
   let items := List.filter (fun i => negb (itemId (slot_item i) =? -1)) inv in
   get_my_inventory JSON_parse_document username w
   = (Ok match items with
         | [] => InventoryEmpty username
         | _ => InventoryListing username (map inventory_line items)
         end, w) /\
   (forall i, In i items <-> In i inv /\ itemId (slot_item i) <> -1) /\
   (items = [] <-> forall i, In i inv -> itemId (slot_item i) = -1) /\
   (forall i, line_quantity (inventory_line i) = Some (quantity (slot_item i))
              <-> 1 < quantity (slot_item i))) /\
  (forall eq,
   equipment doc = Some eq ->
   get_my_equipment JSON_parse_document username w
   = (Ok (EquipmentListing username (map equipment_line eq)), w) /\
   length (map equipment_line eq) = length eq /\
   (forall e, equipment_line e = EmptySlot (fst e) <-> itemId (snd e) = -1)).
Proof.
  intros Hdoc. split.
  - intros inv Hinv items. subst items.
    assert (Hin : forall i,
      In i (List.filter (fun i => negb (itemId (slot_item i) =? -1)) inv)
      <-> In i inv /\ itemId (slot_item i) <> -1).
    { intros i. rewrite filter_In, negb_true_iff, Z.eqb_neq. reflexivity. }
    split; [|split; [exact Hin|split]].
    + unfold get_my_inventory, bind. rewrite Hdoc, Hinv.
      now destruct (List.filter _ inv).
    + split.
      * intros Hnil i Hi.
        destruct (Z.eq_dec (itemId (slot_item i)) (-1)) as [Heq|Hneq]; [exact Heq|].
        pose proof (proj2 (Hin i) (conj Hi Hneq)) as Hcontra.
        rewrite Hnil in Hcontra. destruct Hcontra.
      * intros Hall.
        destruct (List.filter (fun i => negb (itemId (slot_item i) =? -1)) inv)
          as [|i l] eqn:Hf; [reflexivity|].
        destruct (proj1 (Hin i) (or_introl eq_refl)) as [Hi Hneq].
        destruct (Hneq (Hall i Hi)).
    + intros i. unfold inventory_line. simpl.
      destruct (1 <? quantity (slot_item i)) eqn:Hq.
      * apply Z.ltb_lt in Hq. plain_tauto.
      * apply Z.ltb_ge in Hq. split; [discriminate | lia].
  - intros eq Heq. split; [|split].
    + unfold get_my_equipment, bind. now rewrite Hdoc, Heq.
    + apply length_map.
    + intros e. unfold equipment_line.
      destruct (itemId (snd e) =? -1) eqn:He.
      * apply Z.eqb_eq in He. plain_tauto.
      * apply Z.eqb_neq in He. split; [discriminate | plain_tauto].
Qed.







Lemma wikiFetch_frame {T} (params : WikiParams T) (w : World) :
  requests (snd (wikiFetch params w))
  = (requests w ++ [Get (WikiUrl params)])%list /\
  playerDataCache (snd (wikiFetch params w)) = playerDataCache w /\
  itemMappingCache (snd (wikiFetch params w)) = itemMappingCache w /\
  itemMappingExpiry (snd (wikiFetch params w)) = itemMappingExpiry w.
Proof.
  rewrite wikiFetch_unfold.
  destruct (outcome (next_reply w (WikiUrl params))) as [e|st body];
    [repeat split|].
  destruct ((200 <=? st) && (st <=? 299)); repeat split.
Qed.

Lemma wikiFetch_payload {T} (params : WikiParams T) (w : World) (body : T) :
  payload (next_reply w (WikiUrl params)) = Some body ->
  wikiFetch params w = (Ok body, requested (WikiUrl params) w).
Proof.
  rewrite wikiFetch_unfold. unfold payload.
  destruct (outcome (next_reply w (WikiUrl params))) as [e|st [b|e]];
    try discriminate.
  destruct ((200 <=? st) && (st <=? 299)); [|discriminate].
  now intros [= ->].
Qed.

(** X22. The search and summary tools issue exactly one request each, to
    the wiki, and write neither cache.  On a successful response the summary
    tool looks at the first page only: without one, or with one flagged
    missing (even if it carries an extract), the page is reported not found
    under the title that was asked for; with no extract, or one that is
    blank once trimmed, no summary is reported; otherwise the trimmed
    extract is returned under the title of the page. *)
Theorem wiki_tools_one_request (w : World) :
  (forall query limit,
   let w1 := snd (search_tool query limit w) in
   requests w1 = (requests w ++ [Get (WikiUrl (search_params query limit))])%list /\
   playerDataCache w1 = playerDataCache w /\
   itemMappingCache w1 = itemMappingCache w /\
   itemMappingExpiry w1 = itemMappingExpiry w) /\
  (forall title,
   let w1 := snd (summary_tool trim title w) in
   requests w1 = (requests w ++ [Get (WikiUrl (extracts_params title))])%list /\
   playerDataCache w1 = playerDataCache w /\
   itemMappingCache w1 = itemMappingCache w /\
   itemMappingExpiry w1 = itemMappingExpiry w) /\
  (forall title body,
   payload (next_reply w (WikiUrl (extracts_params title))) = Some body ->
   let first := (wpr_query body ≫= (fun q => q)) ≫= head in
   (first = None -> fst (summary_tool trim title w) = Ok (PageNotFound title)) /\
   (forall page,
    first = Some page -> missing page = Some true ->
    fst (summary_tool trim title w) = Ok (PageNotFound title)) /\
   (forall page,
    first = Some page -> missing page <> Some true ->
    (extract page = None \/ exists e, extract page = Some e /\ trim e = "") ->
    fst (summary_tool trim title w) = Ok (NoSummary (page_title page))) /\
   (forall page e,
    first = Some page -> missing page <> Some true ->
    extract page = Some e -> trim e <> "" ->
    fst (summary_tool trim title w) = Ok (Summary (page_title page) (trim e)))).
Proof.
  split; [|split].
  - intros query limit w1. subst w1. rewrite search_tool_unfold.
    pose proof (wikiFetch_frame (search_params query limit) w) as H.
    destruct (wikiFetch (search_params query limit) w) as [[d|e] w1]; exact H.
  - intros title w1. subst w1. unfold summary_tool, bind.
    pose proof (wikiFetch_frame (extracts_params title) w) as H.
    destruct (wikiFetch (extracts_params title) w) as [[d|e] w1]; [|exact H].
    destruct ((wpr_query d ≫= (fun q => q)) ≫= head) as [page|]; [|exact H].
    destruct (default false (missing page)); [exact H|].
    destruct (trim <$> extract page) as [x|]; [|exact H].
    destruct (bool_decide (x = "")); exact H.
  - intros title body Hp first. subst first.
    unfold summary_tool, bind. rewrite (wikiFetch_payload _ _ _ Hp).
    split; [|split; [|split]].
    + intros ->. reflexivity.
    + intros page -> ->. reflexivity.
    + intros page -> Hm He.
      assert (Hmiss : default false (missing page) = false).
      { destruct (missing page) as [[|]|]; [congruence | reflexivity | reflexivity]. }
      rewrite Hmiss.
      destruct He as [-> | (e & -> & He)]; [reflexivity|].
      simpl. rewrite He. reflexivity.
    + intros page e -> Hm -> He.
      assert (Hmiss : default false (missing page) = false).
      { destruct (missing page) as [[|]|]; [congruence | reflexivity | reflexivity]. }
      rewrite Hmiss. simpl. now rewrite bool_decide_false.
Qed.

End ToolProperties.

End Companion.

(** ** The program on the scenarios *)

Example mapping_enumeration_order :
  build_mapping (MappingArray mapping_array)
  = [(2%N, "Cannonball"); (4151%N, "Abyssal whip"); (11840%N, "Dragon boots")].
Proof. reflexivity. Qed.

Example sync_filename_example :
  sync_filename ascii_toLowerCase "Iron Man-7_x!" = "iron_man-7_x_.json".
Proof. reflexivity. Qed.

(** The bank of the specification's example, filtered four ways. *)
Example bank_filter_examples :
  let ts := [ {| tabIndex := 0;
                 items := [ {| itemId := 1; name := "Rune arrow"; quantity := 5000 |} ] |};
              {| tabIndex := 1;
                 items := [ {| itemId := 2; name := "Shark"; quantity := 3 |} ] |} ] in
  map (fun i => itemId (item i)) (bank_items ascii_toLowerCase ts (Some "rune") None None) = [1] /\
  map (fun i => itemId (item i)) (bank_items ascii_toLowerCase ts None None (Some 100)) = [1] /\
  map (fun i => itemId (item i)) (bank_items ascii_toLowerCase ts None (Some 1) None) = [2] /\
  bank_items ascii_toLowerCase ts (Some "shark") (Some 0) None = [].
Proof. repeat split. Qed.

(** ** Witnesses *)

Lemma findItemId_exact_then_substring_witness :
  exists r,
    findItemId ascii_toLowerCase "WHIP" (warm (net_up bob_payload))
    = (Ok r, warm (net_up bob_payload)) /\
    (Exists (fun e => same_ignoring_case ascii_toLowerCase (snd e) "WHIP")
       (build_mapping (MappingArray mapping_array)) ->
     exists id, r = Some id /\
       first_entry (fun n => same_ignoring_case ascii_toLowerCase n "WHIP")
         (build_mapping (MappingArray mapping_array)) id) /\
    (~ Exists (fun e => same_ignoring_case ascii_toLowerCase (snd e) "WHIP")
         (build_mapping (MappingArray mapping_array)) ->
     Exists (fun e => contains_ignoring_case ascii_toLowerCase (snd e) "WHIP")
       (build_mapping (MappingArray mapping_array)) ->
     exists id, r = Some id /\
       first_entry (fun n => contains_ignoring_case ascii_toLowerCase n "WHIP")
         (build_mapping (MappingArray mapping_array)) id) /\
    (~ Exists (fun e => same_ignoring_case ascii_toLowerCase (snd e) "WHIP")
         (build_mapping (MappingArray mapping_array)) ->
     ~ Exists (fun e => contains_ignoring_case ascii_toLowerCase (snd e) "WHIP")
         (build_mapping (MappingArray mapping_array)) ->
     r = None).
Proof.
  apply (findItemId_exact_then_substring ascii_toLowerCase "WHIP"
           (warm (net_up bob_payload)) (warm (net_up bob_payload))
           (build_mapping (MappingArray mapping_array))).
  reflexivity.
Defined.

Example findItemId_examples :
  fst (findItemId ascii_toLowerCase "WHIP" (warm (net_up bob_payload)))
  = Ok (Some 4151%N) /\
  fst (findItemId ascii_toLowerCase "dragon BOOTS" (warm (net_up bob_payload)))
  = Ok (Some 11840%N) /\
  fst (findItemId ascii_toLowerCase "a" (warm (net_up bob_payload)))
  = Ok (Some 2%N) /\
  fst (findItemId ascii_toLowerCase "rune" (warm (net_up bob_payload)))
  = Ok None.
Proof. repeat split. Qed.

Lemma mapping_cache_ttl_witness :
  fst (getItemMapping (started (net_up bob_payload)))
  = Ok (build_mapping (MappingArray mapping_array)) /\
  itemMappingCache (snd (getItemMapping (started (net_up bob_payload))))
  = Some (build_mapping (MappingArray mapping_array)) /\
  itemMappingExpiry (snd (getItemMapping (started (net_up bob_payload))))
  = clock (snd (getItemMapping (started (net_up bob_payload)))) + 3600000 /\
  (length (requests (snd (getItemMapping
             (elapse 3540000 (snd (getItemMapping (started (net_up bob_payload))))))))
   <= length (requests (started (net_up bob_payload))) + 1)%nat /\
  (exists m, itemMappingCache (warm (net_up bob_payload)) = Some m /\
             getItemMapping (warm (net_up bob_payload))
             = (Ok m, warm (net_up bob_payload))).
Proof.
  destruct (mapping_cache_ttl (started (net_up bob_payload)))
    as (_ & _ & Hsuccess & _ & Htwo & _).
  destruct (Hsuccess (MappingArray mapping_array) eq_refl eq_refl)
    as (Hres & Hcache & Hexpiry & _).
  split; [exact Hres|]. split; [exact Hcache|]. split; [exact Hexpiry|].
  split.
  - apply (Htwo 3540000%N (build_mapping (MappingArray mapping_array)) Hres).
    reflexivity.
  - destruct (mapping_cache_ttl (warm (net_up bob_payload))) as (Hfresh & _).
    apply Hfresh. reflexivity.
Defined.


Lemma player_fetch_failures_witness :
  fst (fetchWikiSyncPlayer "Bob" false (started (net_status 503)))
  = Ok {| data := None; message := Some "WikiSync API returned 503" |} /\
  fst (fetchWikiSyncPlayer "Bob" false (started net_unreachable))
  = Ok {| data := None; message := Some "Error: fetch failed" |} /\
  fst (fetchWikiSyncPlayer "Bob" false (started (net_up (JObject []))))
  = Ok {| data := None; message := Some NO_PLAYER_DATA |} /\
  playerDataCache (snd (fetchWikiSyncPlayer "Bob" false (started (net_up (JObject [])))))
  = playerDataCache (started (net_up (JObject []))).
Proof.
  destruct (player_fetch_failures "Bob" false (started (net_status 503)) eq_refl)
    as (_ & Hstatus & _).
  destruct (player_fetch_failures "Bob" false (started net_unreachable) eq_refl)
    as (_ & _ & Htransport & _).
  destruct (player_fetch_failures "Bob" false (started (net_up (JObject []))) eq_refl)
    as (_ & _ & _ & _ & Hempty & _).
  split; [apply (Hstatus 503 (Throw (ErrorObj "Unexpected token < in JSON")));
          reflexivity|].
  split; [apply (Htransport (ErrorObj "fetch failed")); reflexivity|].
  destruct (Hempty 200 eq_refl eq_refl) as [Hres Hcache].
  split; [exact Hres | exact Hcache].
Defined.

Lemma player_cache_frame_witness :
  playerDataCache (snd (fetchWikiSyncPlayer "Bob" true (warm (net_status 503))))
  = playerDataCache (warm (net_status 503)) /\
  fetchWikiSyncPlayer "Bob" false
    (elapse 500000 (snd (fetchWikiSyncPlayer "Bob" true (warm (net_status 503)))))
  = (Ok {| data := Some stale_payload; message := None |},
     elapse 500000 (snd (fetchWikiSyncPlayer "Bob" true (warm (net_status 503))))).
Proof.
  destruct (player_cache_frame "Bob" true (warm (net_status 503)) (or_intror eq_refl))
    as [Hframe Hlater].
  split; [exact Hframe|].
  apply (Hlater {| ce_data := stale_payload;
                   fetchedAt := 1700000000000 - 3000000 |} 500000%N);
    reflexivity.
Defined.

Lemma sync_read_failure_is_missing_witness :
  getPlayerSyncData ascii_toLowerCase parse_sync_file home_sync_dir
    "NoSuchUser" (started net_unreachable)
  = (Ok None, started net_unreachable) /\
  getPlayerSyncData ascii_toLowerCase parse_sync_file home_sync_dir
    "Corrupt" (started net_unreachable)
  = (Ok None, started net_unreachable).
Proof.
  split.
  - apply (sync_read_failure_is_missing ascii_toLowerCase ascii_toUpperCase
             parse_sync_file home_sync_dir "NoSuchUser" (started net_unreachable)).
    left. exists (ErrorObj "ENOENT: no such file or directory"). reflexivity.
  - apply (sync_read_failure_is_missing ascii_toLowerCase ascii_toUpperCase
             parse_sync_file home_sync_dir "Corrupt" (started net_unreachable)).
    right. exists "{ truncated", (ErrorObj "Unexpected end of JSON input").
    split; reflexivity.
Defined.


Lemma skill_lookup_by_upper_cased_key_witness :
  get_my_stats ascii_toLowerCase ascii_toUpperCase parse_sync_file home_sync_dir
    "Bob" (Some "mining") (started net_unreachable)
  = (Ok (SkillDetail "Bob" "MINING" 60 273742), started net_unreachable) /\
  get_my_stats ascii_toLowerCase ascii_toUpperCase parse_sync_file home_sync_dir
    "Bob" (Some "Sailing") (started net_unreachable)
  = (Ok (SkillNotFound "Sailing" ["ATTACK"; "MINING"; "OVERALL"]),
     started net_unreachable).
Proof.
  destruct (skill_lookup_by_upper_cased_key ascii_toLowerCase ascii_toUpperCase
              parse_sync_file home_sync_dir "Bob" (started net_unreachable)
              bob_document
              [ ("ATTACK", {| level := 75; xp := 1210421 |});
                ("MINING", {| level := 60; xp := 273742 |});
                ("OVERALL", {| level := 135; xp := 1484163 |}) ]
              "mining" eq_refl eq_refl)
    as (_ & _ & Hupper).
  { apply (bool_decide_unpack _). vm_compute. exact I. }
  { discriminate. }
  destruct (skill_lookup_by_upper_cased_key ascii_toLowerCase ascii_toUpperCase
              parse_sync_file home_sync_dir "Bob" (started net_unreachable)
              bob_document
              [ ("ATTACK", {| level := 75; xp := 1210421 |});
                ("MINING", {| level := 60; xp := 273742 |});
                ("OVERALL", {| level := 135; xp := 1484163 |}) ]
              "Sailing" eq_refl eq_refl)
    as (_ & Hmissing & _).
  { apply (bool_decide_unpack _). vm_compute. exact I. }
  { discriminate. }
  split.
  - destruct Hupper as [Hfound _].
    + intros key [<- | [<- | [<- | []]]]; reflexivity.
    + apply (Hfound "MINING" {| level := 60; xp := 273742 |}).
      * right. left. reflexivity.
      * reflexivity.
  - apply Hmissing. vm_compute. intros [H | [H | [H | []]]]; discriminate.
Defined.


Example price_tool_examples :
  fst (price_tool ascii_toLowerCase "cannonball" (warm (net_up bob_payload)))
  = Ok (PriceQuote [ Heading "Cannonball";
                     BuyLine 201 " (16m ago)";
                     SellLine 198 " (2h ago)";
                     BlankLine;
                     UrlLine "Cannonball" ]) /\
  fst (price_tool ascii_toLowerCase "rune platebody" (warm (net_up bob_payload)))
  = Ok (ItemNotFound "rune platebody").
Proof. split; reflexivity. Qed.


(** ** Counterexamples *)



(** C4 as stated fails: the document has a skill key that equals the
    argument up to case, and the tool reports the skill as not found. *)
Lemma skill_lookup_misses_key_not_in_upper_case :
  getPlayerSyncData ascii_toLowerCase parse_sync_file home_sync_dir
    "Alice" (started net_unreachable)
  = (Ok (Some alice_document), started net_unreachable) /\
  skills alice_document = Some [ ("Attack", {| level := 75; xp := 1210421 |}) ] /\
  same_skill_key ascii_toUpperCase "Attack" "attack" /\
  get_my_stats ascii_toLowerCase ascii_toUpperCase parse_sync_file home_sync_dir
    "Alice" (Some "attack") (started net_unreachable)
  = (Ok (SkillNotFound "attack" ["Attack"]), started net_unreachable).
Proof. repeat split. Qed.

(** C5 as stated fails: the first resolution's request is refused, nothing
    is cached, and a second resolution one second later issues a second
    request: two mapping requests within the hour. *)
Lemma mapping_fetched_twice_after_failure :
  let w := started (net_status 503) in
  let w1 := snd (getItemMapping w) in
  let w2 := snd (getItemMapping (elapse 1000 w1)) in
  fst (getItemMapping w) = Throw (ErrorObj "Prices API returned 503") /\
  itemMappingCache w1 = None /\
  clock (elapse 1000 w1) < clock w + 3600000 /\
  requests w = [] /\
  requests w2 = [Get (PricesUrl mapping_path); Get (PricesUrl mapping_path)].
Proof. repeat split. Qed.

(** ** The further properties on the scenarios *)

Example stripHtml_examples :
  stripHtml "The <span class=hit>abyssal</span> whip &amp; its &quot;spec&quot;"
  = "The abyssal whip & its " +:+ QUOTE +:+ "spec" +:+ QUOTE /\
  stripHtml "a <> b and 1 < 2" = "a <> b and 1 < 2" /\
  stripHtml "x < y > z" = "x  z" /\
  stripHtml "&amp;quot;" = "&quot;".
Proof. vm_compute. repeat split. Qed.

Lemma formatTimeAgo_buckets_witness :
  formatTimeAgo 1699999000 (started net_unreachable)
  = (Ok "16m ago", started net_unreachable) /\
  formatTimeAgo 1700000500 (started net_unreachable)
  = (Ok "just now", started net_unreachable) /\
  formatTimeAgo 1699000000 (started net_unreachable)
  = (Ok "11d ago", started net_unreachable).
Proof.
  pose proof (formatTimeAgo_buckets 1699999000 (started net_unreachable)) as Hmin.
  pose proof (formatTimeAgo_buckets 1700000500 (started net_unreachable)) as Hnow.
  pose proof (formatTimeAgo_buckets 1699000000 (started net_unreachable)) as Hday.
  cbv zeta in Hmin, Hnow, Hday.
  destruct Hmin as (_ & Hmin & _). destruct Hnow as (Hnow & _).
  destruct Hday as (_ & _ & _ & Hday).
  split; [|split].
  - apply Hmin. split; [discriminate | reflexivity].
  - apply Hnow. reflexivity.
  - apply Hday. discriminate.
Defined.

Lemma sync_filename_safe_witness :
  sync_filename ascii_toLowerCase "bob-the_2nd" = "bob-the_2nd.json" /\
  sync_filename ascii_toLowerCase "Iron Man" = sync_filename ascii_toLowerCase "iron_man" /\
  getPlayerSyncData ascii_toLowerCase parse_sync_file home_sync_dir
    "B.O.B" (started net_unreachable)
  = getPlayerSyncData ascii_toLowerCase parse_sync_file home_sync_dir
      "b_o_b" (started net_unreachable).
Proof.
  destruct (sync_filename_safe ascii_toLowerCase parse_sync_file home_sync_dir
              "bob-the_2nd") as (_ & _ & Hkept & _).
  destruct (sync_filename_safe ascii_toLowerCase parse_sync_file home_sync_dir
              "iron_man") as (_ & _ & _ & Hiron).
  destruct (sync_filename_safe ascii_toLowerCase parse_sync_file home_sync_dir
              "b_o_b") as (_ & _ & _ & Hbob).
  split; [|split].
  - apply Hkept; [reflexivity|]. apply (bool_decide_unpack _). vm_compute. exact I.
  - apply (Hiron "Iron Man" (started net_unreachable)). reflexivity.
  - apply (Hbob "B.O.B" (started net_unreachable)). reflexivity.
Defined.

Lemma listSyncedPlayers_lists_json_entries_witness :
  exists players,
    listSyncedPlayers (synced net_unreachable) = (Ok players, synced net_unreachable) /\
    (forall p, In p players
               <-> In (p +:+ ".json") ["bob.json"; "carol.json"; "readme.txt"; "Dave.json"]) /\
    map (fun p => p +:+ ".json") players
    = List.filter (fun f => endsWith f ".json")
        ["bob.json"; "carol.json"; "readme.txt"; "Dave.json"].
Proof.
  destruct (listSyncedPlayers_lists_json_entries (synced net_unreachable))
    as [_ Hlisted].
  apply Hlisted. reflexivity.
Defined.

Example listSyncedPlayers_example :
  fst (listSyncedPlayers (synced net_unreachable)) = Ok ["bob"; "carol"; "Dave"].
Proof. reflexivity. Qed.

Lemma item_table_last_write_wins_witness :
  mapping_get 2%N
    (mapping_set 4151%N "Abyssal whip (or)"
       (build_mapping (MappingArray mapping_array)))
  = mapping_get 2%N (build_mapping (MappingArray mapping_array)) /\
  mapping_get 4151%N
    (build_mapping
       (MappingArray (mapping_array ++ [ {| mi_id := 4151%N; mi_name := "Whip" |} ])))
  = Some "Whip".
Proof.
  destruct (item_table_last_write_wins mapping_array 4151%N) as (_ & Hother & _).
  destruct (item_table_last_write_wins
              (mapping_array ++ [ {| mi_id := 4151%N; mi_name := "Whip" |} ])
              4151%N) as (_ & _ & Hlast & _).
  split.
  - apply Hother. discriminate.
  - exact Hlast.
Defined.

Lemma findItemId_sound_and_exact_first_witness :
  findItemId ascii_toLowerCase "cannonball"
    (warm (net_up bob_payload))
  = (Ok (Some 2%N), warm (net_up bob_payload)).
Proof.
  destruct (findItemId_sound_and_exact_first ascii_toLowerCase "cannonball"
              (warm (net_up bob_payload)) (warm (net_up bob_payload))
              (build_mapping (MappingArray mapping_array)) eq_refl)
    as [_ Hexact].
  apply (Hexact 2%N "Cannonball").
  - left. reflexivity.
  - reflexivity.
  - intros id' n' Hin Hsame.
    destruct Hin as [[= <- <-] | [[= <- <-] | [[= <- <-] | []]]];
      [reflexivity | vm_compute in Hsame; discriminate Hsame
       | vm_compute in Hsame; discriminate Hsame].
Defined.


Lemma price_tool_requests_witness :
  price_tool ascii_toLowerCase "rune platebody" (warm (net_up bob_payload))
  = (Ok (ItemNotFound "rune platebody"), warm (net_up bob_payload)) /\
  requests (snd (price_tool ascii_toLowerCase "whip" (warm (net_up bob_payload))))
  = [Get (PricesUrl (latest_path 4151%N))].
Proof.
  destruct (price_tool_requests ascii_toLowerCase "rune platebody"
              (warm (net_up bob_payload))) as (_ & _ & Hnone & _).
  destruct (price_tool_requests ascii_toLowerCase "whip"
              (warm (net_up bob_payload))) as (_ & _ & _ & Hone).
  split.
  - apply (Hnone (build_mapping (MappingArray mapping_array))); reflexivity.
  - apply (Hone (build_mapping (MappingArray mapping_array)) 4151%N); reflexivity.
Defined.



Lemma player_fetch_stores_bodies_with_keys_witness :
  fst (fetchWikiSyncPlayer "Bob" false (started (net_up (JArray []))))
  = Ok {| data := None; message := Some NO_PLAYER_DATA |} /\
  fst (fetchWikiSyncPlayer "Bob" false (started (net_up (JNumber 7))))
  = Ok {| data := None; message := Some NO_PLAYER_DATA |} /\
  playerDataCache
    (snd (fetchWikiSyncPlayer "Bob" false (started (net_up (JArray [JNull]))))) !! "Bob"
  = Some {| ce_data := JArray [JNull]; fetchedAt := 1700000000000 |}.
Proof.
  destruct (player_fetch_stores_bodies_with_keys "Bob" false
              (started (net_up (JArray []))) (JArray []) eq_refl eq_refl)
    as [_ Hempty].
  destruct (player_fetch_stores_bodies_with_keys "Bob" false
              (started (net_up (JNumber 7))) (JNumber 7) eq_refl eq_refl)
    as [_ Hnumber].
  destruct (player_fetch_stores_bodies_with_keys "Bob" false
              (started (net_up (JArray [JNull]))) (JArray [JNull]) eq_refl eq_refl)
    as [Hkeys _].
  split; [apply Hempty; intros []|].
  split; [apply Hnumber; intros []|].
  apply Hkeys. exact I.
Defined.

Lemma empty_table_is_cached_witness :
  itemMappingCache (snd (getItemMapping (started net_mapping_object))) = Some [] /\
  price_tool ascii_toLowerCase "abyssal whip"
    (elapse 3599000 (snd (getItemMapping (started net_mapping_object))))
  = (Ok (ItemNotFound "abyssal whip"),
     elapse 3599000 (snd (getItemMapping (started net_mapping_object)))).
Proof.
  pose proof (empty_table_is_cached ascii_toLowerCase
                (started net_mapping_object) MappingOther
                eq_refl eq_refl (or_introl eq_refl)) as H.
  cbv zeta in H. destruct H as (_ & Hcache & Hlater).
  split; [exact Hcache|].
  apply (Hlater 3599000%N "abyssal whip"). reflexivity.
Defined.

Lemma stripHtml_shrinks_witness :
  stripHtml "Zulrah (level 725)" = "Zulrah (level 725)".
Proof.
  destruct (stripHtml_shrinks "Zulrah (level 725)") as (_ & _ & Hplain).
  apply Hplain; vm_compute;
    intros H; repeat destruct H as [H | H]; try discriminate H; exact H.
Defined.


Lemma quests_filters_conjunctive_witness :
  get_my_quests ascii_toLowerCase home_sync_dir parse_whole_document
    "Bob" (Some FINISHED) (Some "dragon") (synced net_unreachable)
  = (Ok (QuestsListing "Bob" [("[Done]", "Dragon Slayer I")]),
     synced net_unreachable) /\
  get_my_quests ascii_toLowerCase home_sync_dir parse_whole_document
    "Bob" (Some NOT_STARTED) (Some "dragon") (synced net_unreachable)
  = (Ok QuestsNoMatch, synced net_unreachable).
Proof.
  pose proof (fun state search =>
    quests_filters_conjunctive ascii_toLowerCase home_sync_dir
      parse_whole_document "Bob" state search (synced net_unreachable)
      bob_whole_document
      [ {| quest_name := "DRAGON_SLAYER_I"; displayName := "Dragon Slayer I";
           quest_state := FINISHED |};
        {| quest_name := "DRAGON_SLAYER_II"; displayName := "Dragon Slayer II";
           quest_state := IN_PROGRESS |};
        {| quest_name := "COOKS_ASSISTANT"; displayName := "Cook's Assistant";
           quest_state := FINISHED |};
        {| quest_name := "MONKEY_MADNESS_I"; displayName := "Monkey Madness I";
           quest_state := NOT_STARTED |} ]
      eq_refl eq_refl) as H.
  cbv zeta in H. split.
  - destruct (H (Some FINISHED) (Some "dragon")) as (_ & _ & _ & Hrun).
    exact Hrun.
  - destruct (H (Some NOT_STARTED) (Some "dragon")) as (_ & _ & _ & Hrun).
    exact Hrun.
Defined.

Lemma diaries_region_up_to_case_witness :
  get_my_diaries ascii_toLowerCase ascii_toUpperCase home_sync_dir
    parse_whole_document "Bob" (Some "varrock") (synced net_unreachable)
  = (Ok (DiariesListing "Bob"
           [ ("Varrock", {| easy := true; medium := false; hard := false;
                            elite := false |}) ]),
     synced net_unreachable) /\
  get_my_diaries ascii_toLowerCase ascii_toUpperCase home_sync_dir
    parse_whole_document "Bob" (Some "Kandarin") (synced net_unreachable)
  = (Ok (RegionNotFound "Kandarin" ["ARDOUGNE"; "Varrock"]),
     synced net_unreachable).
Proof.
  destruct (diaries_region_up_to_case ascii_toLowerCase ascii_toUpperCase
              home_sync_dir parse_whole_document "Bob" (synced net_unreachable)
              bob_whole_document
              [ ("ARDOUGNE", {| easy := true; medium := true; hard := false;
                                elite := false |});
                ("Varrock", {| easy := true; medium := false; hard := false;
                               elite := false |}) ]
              eq_refl eq_refl) as (_ & _ & Hregion).
  split.
  - destruct (Hregion "varrock") as [Hfound _]; [discriminate|].
    destruct Hfound as (diaries & Hrun & _ & Hlist & _).
    + exists ("Varrock", {| easy := true; medium := false; hard := false;
                            elite := false |}).
      split; [right; left; reflexivity | reflexivity].
    + rewrite Hrun, Hlist. reflexivity.
  - destruct (Hregion "Kandarin") as [_ Hmissing]; [discriminate|].
    apply Hmissing. intros e [<- | [<- | []]] Hsame;
      vm_compute in Hsame; discriminate Hsame.
Defined.

Lemma combat_tasks_listed_up_to_100_witness :
  (exists report,
     get_my_combat_achievements ascii_toLowerCase home_sync_dir
       parse_whole_document "Bob" (Some "novice") (synced net_unreachable)
     = (Ok (CombatListing "Bob" report), synced net_unreachable) /\
     report_completed report = 4%nat /\
     report_tasks report = TaskLines ["Barrows Novice"; "Giant Mole Novice"]) /\
  (exists report,
     get_my_combat_achievements ascii_toLowerCase home_sync_dir
       parse_whole_document "Carol" None (synced net_unreachable)
     = (Ok (CombatListing "Carol" report), synced net_unreachable) /\
     report_tasks report = TooManyTasks 101).
Proof.
  split.
  - pose proof (combat_tasks_listed_up_to_100 ascii_toLowerCase home_sync_dir
                  parse_whole_document "Bob" (Some "novice")
                  (synced net_unreachable) bob_whole_document
                  {| easyComplete := true; mediumComplete := false;
                     hardComplete := false; eliteComplete := false;
                     completedTasks := [ "Noxious Foe"; "Barrows Novice";
                                         "A Slow Death"; "Giant Mole Novice" ] |}
                  eq_refl eq_refl) as H.
    cbv zeta in H. destruct H as (report & Hrun & Hcount & _ & Hlisted & _).
    exists report. split; [exact Hrun|]. split; [exact Hcount|].
    apply Hlisted. vm_compute. split; repeat constructor.
  - pose proof (combat_tasks_listed_up_to_100 ascii_toLowerCase home_sync_dir
                  parse_whole_document "Carol" None
                  (synced net_unreachable) carol_whole_document
                  {| easyComplete := true; mediumComplete := true;
                     hardComplete := false; eliteComplete := false;
                     completedTasks := repeat "Noxious Foe" 101 |}
                  eq_refl eq_refl) as H.
    cbv zeta in H. destruct H as (report & Hrun & _ & _ & _ & Hmany).
    exists report. split; [exact Hrun|].
    apply Hmany. vm_compute. repeat constructor.
Defined.

Lemma empty_slot_sentinel_witness :
  get_my_inventory ascii_toLowerCase home_sync_dir parse_whole_document
    "Bob" (synced net_unreachable)
  = (Ok (InventoryListing "Bob"
           [ {| line_slot := 0; line_name := "Shark"; line_quantity := None |};
             {| line_slot := 2; line_name := "Rune arrow";
                line_quantity := Some 250 |} ]),
     synced net_unreachable) /\
  get_my_inventory ascii_toLowerCase home_sync_dir parse_whole_document
    "Carol" (synced net_unreachable)
  = (Ok (InventoryEmpty "Carol"), synced net_unreachable) /\
  get_my_equipment ascii_toLowerCase home_sync_dir parse_whole_document
    "Bob" (synced net_unreachable)
  = (Ok (EquipmentListing "Bob"
           [ EmptySlot "HEAD"; Equipped "WEAPON" "Abyssal whip" 4151 ]),
     synced net_unreachable).
Proof.
  destruct (empty_slot_sentinel ascii_toLowerCase home_sync_dir
              parse_whole_document "Bob" (synced net_unreachable)
              bob_whole_document eq_refl) as [Hinv Heq].
  destruct (empty_slot_sentinel ascii_toLowerCase home_sync_dir
              parse_whole_document "Carol" (synced net_unreachable)
              carol_whole_document eq_refl) as [Hcarol _].
  split; [|split].
  - pose proof (Hinv _ eq_refl) as H. cbv zeta in H.
    destruct H as (Hrun & _). exact Hrun.
  - pose proof (Hcarol _ eq_refl) as H. cbv zeta in H.
    destruct H as (Hrun & _). exact Hrun.
  - destruct (Heq _ eq_refl) as (Hrun & _). exact Hrun.
Defined.



Example player_tool_example :
  fst (player_tool ascii_trim "Bob" false (started (net_status 503)))
  = Ok (PlayerMessage "WikiSync API returned 503").
Proof. reflexivity. Qed.

Lemma wiki_tools_one_request_witness :
  fst (summary_tool ascii_trim "Abyssal whip" (synced net_wiki))
  = Ok (Summary "Abyssal whip" "The abyssal whip is a one-handed Melee weapon.") /\
  requests (snd (summary_tool ascii_trim "Abyssal whip" (synced net_wiki)))
  = [Get (WikiUrl (extracts_params "Abyssal whip"))].
Proof.
  destruct (wiki_tools_one_request ascii_trim (synced net_wiki))
    as (_ & Hframe & Hsummary).
  split.
  - pose proof (Hsummary "Abyssal whip" _ eq_refl) as H. cbv zeta in H.
    destruct H as (_ & _ & _ & Hok).
    apply (Hok whip_page "  The abyssal whip is a one-handed Melee weapon. ");
      try reflexivity; discriminate.
  - pose proof (Hframe "Abyssal whip") as H. cbv zeta in H.
    destruct H as (Hreq & _). exact Hreq.
Defined.
